(** * Organizations Directory API: the query core, embedded and verified

    The source is a single FastAPI module over four SQLAlchemy tables
    (buildings, activities, organizations, organization_activities).
    Every handler is a read-only query; the two recursive helpers
    [get_descendants] and [collect_tree] walk the self-referential
    activities table under a depth cap.

    Tables are lists of rows in the order the store returns them; a query
    without ORDER BY is a [filter] over that list.  Nullable columns are
    [option]s and WHERE clauses follow SQL's three-valued logic.  Python
    [int] is [Z]; Python/SQLite floats are binary64 primitive floats.

    The handlers are modelled up to the value they return or the exception
    they raise; the API-key dependency, the session life cycle and the
    serialisation of the answer are left to the framework, and the
    interpreter's recursion limit is not modelled. *)

From Stdlib Require Import ZArith List Bool String Ascii Lia Floats.
Import ListNotations.

Local Open Scope Z_scope.

#[local] Set Warnings "-inexact-float,-register-all".

(** ** The four mapped classes *)

Module Building.
Record t : Type := mk
  { id : Z;
    address : string;
    lat : option float;
    lon : option float }.
End Building.

Module Activity.
Record t : Type := mk
  { id : Z;
    name : string;
    parent_id : option Z }.
End Activity.

Module Organization.
Record t : Type := mk
  { id : Z;
    name : string;
    phones : option string;
    building_id : option Z }.
End Organization.

Module OrganizationActivity.
Record t : Type := mk
  { id : Z;
    organization_id : option Z;
    activity_id : option Z }.
End OrganizationActivity.

(** The pydantic schema the tree endpoint answers with. *)
Module ActivityOut.
Record t : Type := mk
  { id : Z;
    name : string;
    parent_id : option Z }.

Definition from_orm (act : Activity.t) : t :=
  {| id := Activity.id act;
     name := Activity.name act;
     parent_id := Activity.parent_id act |}.
End ActivityOut.

(** The session: the contents of the four tables, each in retrieval order. *)
Module Session.
Record t : Type := mk
  { buildings : list Building.t;
    activities : list Activity.t;
    organizations : list Organization.t;
    organization_activities : list OrganizationActivity.t }.
End Session.

(** ** SQL expressions over nullable columns *)

Module Sql.

(** A WHERE clause evaluates to true, false or NULL ([None]). *)
Definition truth : Type := option bool.

(** A row is kept only when the clause is true. *)
Definition holds (c : truth) : bool :=
  match c with
  | Some true => true
  | _ => false
  end.

Definition or3 (a b : truth) : truth :=
  match a, b with
  | Some true, _ | _, Some true => Some true
  | Some false, Some false => Some false
  | _, _ => None
  end.

(** [col = value] *)
Definition eq (col value : option Z) : truth :=
  match col, value with
  | Some x, Some y => Some (x =? y)
  | _, _ => None
  end.

(** [col == value] as SQLAlchemy renders it: [IS NULL] when the Python
    operand is [None], [=] otherwise. *)
Definition col_eq (col value : option Z) : truth :=
  match value with
  | None => Some (match col with None => true | Some _ => false end)
  | Some _ => eq col value
  end.

(** [col IN (v1, ..., vn)]; the empty list gives false. *)
Definition in_ (col : option Z) (values : list (option Z)) : truth :=
  fold_right (fun v acc => or3 (eq col v) acc) (Some false) values.

(** Arithmetic and comparison on nullable floats: NULL is absorbing. *)
Definition lift2 {A B C} (f : A -> B -> C) (x : option A) (y : option B)
  : option C :=
  match x, y with
  | Some a, Some b => Some (f a b)
  | _, _ => None
  end.

Definition select {A} (where_ : A -> truth) (table : list A) : list A :=
  filter (fun row => holds (where_ row)) table.

(** [.first()] *)
Definition first {A} (rows : list A) : option A :=
  match rows with
  | [] => None
  | row :: _ => Some row
  end.

(** ASCII lower-casing, as the engine's [lower()] does it. *)
Definition lower_char (c : ascii) : ascii :=
  let n := nat_of_ascii c in
  if (65 <=? n)%nat && (n <=? 90)%nat then ascii_of_nat (n + 32) else c.

Fixpoint lower (s : string) : string :=
  match s with
  | EmptyString => EmptyString
  | String c s' => String (lower_char c) (lower s')
  end.

(** [subject LIKE pattern]: [%] matches any run of characters, [_] any one
    character, every other character itself. *)
Fixpoint like (pattern : string) : string -> bool :=
  match pattern with
  | EmptyString =>
      fun subject =>
        match subject with EmptyString => true | String _ _ => false end
  | String p pattern' =>
      if (p =? "%")%char then
        fix any_run (subject : string) : bool :=
          like pattern' subject
          || match subject with
             | EmptyString => false
             | String _ subject' => any_run subject'
             end
      else if (p =? "_")%char then
        fun subject =>
          match subject with
          | EmptyString => false
          | String _ subject' => like pattern' subject'
          end
      else
        fun subject =>
          match subject with
          | EmptyString => false
          | String c subject' => (p =? c)%char && like pattern' subject'
          end
  end.

(** [col.ilike(pattern)]: [lower(col) LIKE lower(pattern)]. *)
Definition ilike (col pattern : string) : truth :=
  Some (like (lower pattern) (lower col)).

End Sql.

(** ** What a handler hands back to the framework *)

Inductive Response (A : Type) : Type :=
| Ok (body : A)
| HTTPException (status_code : Z) (detail : string)
| RequestValidationError.

Arguments Ok {A} body.
Arguments HTTPException {A} status_code detail.
Arguments RequestValidationError {A}.

(** ** The API key dependency *)

Definition API_KEY : string := "STATIC_API_KEY".

(** [get_api_key]: raises unless the header value is the static key. *)
Definition get_api_key (api_key : string) : Response unit :=
  if negb (String.eqb api_key API_KEY)
  then HTTPException 403 "Invalid API key"
  else Ok tt.

(** ** Store round trips of the tree walkers

    The recursive helpers issue one query per call that passes the depth
    test.  A walk returns its value together with the keys whose children it
    asked the store for, in order.  [None] is reserved for the embedding
    running out of fuel; the totality lemmas below show it never occurs. *)

Definition Fetch : Type := option Z.

Definition Walk (A : Type) : Type := option (A * list Fetch).

Definition ret {A} (a : A) : Walk A := Some (a, []).

Definition bind {A B} (m : Walk A) (k : A -> Walk B) : Walk B :=
  match m with
  | None => None
  | Some (a, q1) =>
      match k a with
      | None => None
      | Some (b, q2) => Some (b, q1 ++ q2)
      end
  end.

Definition out_of_fuel {A} : Walk A := None.

Notation "x <- m ;; k" := (bind m (fun x => k))
  (at level 61, m at next level, right associativity).

(** A Python [for] loop threading an accumulator through its body. *)
Fixpoint for_each {A S} (xs : list A) (acc : S) (body : S -> A -> Walk S)
  : Walk S :=
  match xs with
  | [] => ret acc
  | x :: xs' => acc' <- body acc x ;; for_each xs' acc' body
  end.

(** [db.query(Activity).filter(Activity.parent_id == key).all()] *)
Definition children_of (db : Session.t) (key : option Z) : list Activity.t :=
  Sql.select (fun a => Sql.col_eq (Activity.parent_id a) key)
             (Session.activities db).

Definition fetch_children (db : Session.t) (key : option Z)
  : Walk (list Activity.t) :=
  Some (children_of db key, [key]).

(** ** [search_by_activity_tree] and its helper [get_descendants] *)

Fixpoint get_descendants_fuel (fuel : nat) (db : Session.t)
  (act_id : Z) (depth : Z) : Walk (list Z) :=
  if depth >? 2 then ret []
  else
    match fuel with
    | O => out_of_fuel
    | S fuel' =>
        children <- fetch_children db (Some act_id) ;;
        for_each children [act_id]
          (fun ids child =>
             sub <- get_descendants_fuel fuel' db (Activity.id child)
                      (depth + 1) ;;
             ret (ids ++ sub))
    end.

(** The call [get_descendants(activity_id)]: [depth] defaults to 0, and three
    units of fuel cover the three levels the depth test lets through. *)
Definition get_descendants (db : Session.t) (act_id : Z) : Walk (list Z) :=
  get_descendants_fuel 3 db act_id 0.

(** [db.query(OrganizationActivity.organization_id).filter(clause).all()],
    already projected to the first component of each row. *)
Definition link_org_ids (db : Session.t)
  (clause : OrganizationActivity.t -> Sql.truth) : list (option Z) :=
  map OrganizationActivity.organization_id
      (Sql.select clause (Session.organization_activities db)).

(** [db.query(Organization).filter(Organization.id.in_(org_ids)).all()] *)
Definition orgs_with_ids (db : Session.t) (org_ids : list (option Z))
  : list Organization.t :=
  Sql.select (fun o => Sql.in_ (Some (Organization.id o)) org_ids)
             (Session.organizations db).

Definition search_by_activity_tree (db : Session.t) (activity_id : Z)
  : Walk (list Organization.t) :=
  ids <- get_descendants db activity_id ;;
  let org_ids :=
    link_org_ids db
      (fun l => Sql.in_ (OrganizationActivity.activity_id l) (map Some ids)) in
  ret (orgs_with_ids db org_ids).

(** ** [get_activity_tree] and its helper [collect_tree] *)

Fixpoint collect_tree_fuel (fuel : nat) (db : Session.t) (max_depth : Z)
  (parent_id : option Z) (depth : Z) : Walk (list ActivityOut.t) :=
  if depth >=? max_depth then ret []
  else
    match fuel with
    | O => out_of_fuel
    | S fuel' =>
        acts <- fetch_children db parent_id ;;
        for_each acts []
          (fun result act =>
             let result := result ++ [ActivityOut.from_orm act] in
             sub <- collect_tree_fuel fuel' db max_depth
                      (Some (Activity.id act)) (depth + 1) ;;
             ret (result ++ sub))
    end.

(** The call [collect_tree()]: from the roots ([parent_id=None]) at depth 0;
    [max_depth] levels of recursion pass the depth test. *)
Definition get_activity_tree (db : Session.t) (max_depth : Z)
  : Walk (list ActivityOut.t) :=
  collect_tree_fuel (Z.to_nat max_depth) db max_depth None 0.

(** ** The non-recursive handlers *)

Definition orgs_by_building (db : Session.t) (building_id : Z)
  : list Organization.t :=
  Sql.select
    (fun o => Sql.col_eq (Organization.building_id o) (Some building_id))
    (Session.organizations db).

Definition orgs_by_activity (db : Session.t) (activity_id : Z)
  : list Organization.t :=
  let org_ids :=
    link_org_ids db
      (fun l => Sql.col_eq (OrganizationActivity.activity_id l)
                           (Some activity_id)) in
  orgs_with_ids db org_ids.

Definition get_organization (db : Session.t) (org_id : Z)
  : Response Organization.t :=
  match
    Sql.first
      (Sql.select (fun o => Sql.col_eq (Some (Organization.id o)) (Some org_id))
                  (Session.organizations db))
  with
  | None => HTTPException 404 "Organization not found"%string
  | Some org => Ok org
  end.

Definition orgs_by_name (db : Session.t) (name : string)
  : list Organization.t :=
  Sql.select
    (fun o => Sql.ilike (Organization.name o) ("%" ++ name ++ "%")%string)
    (Session.organizations db).

(** ** The radius search

    [**] reaches the engine as its power function.  That function belongs to
    the SQL engine, not to this repository, so the handler is stated over an
    arbitrary [pow]; every other operation is IEEE binary64.  An engine that
    turns a NaN into NULL selects the same rows: neither a NaN nor a NULL
    passes [<=]. *)

Section Radius.

Variable pow : float -> float -> float.

(** [((Building.lat - lat) ** 2 + (Building.lon - lon) ** 2) ** 0.5] *)
Definition distance (b : Building.t) (lat lon : float) : option float :=
  let dlat := Sql.lift2 PrimFloat.sub (Building.lat b) (Some lat) in
  let dlon := Sql.lift2 PrimFloat.sub (Building.lon b) (Some lon) in
  let sq x := Sql.lift2 pow x (Some 2%float) in
  Sql.lift2 pow (Sql.lift2 PrimFloat.add (sq dlat) (sq dlon))
            (Some 0.5%float).

Definition within (lat lon radius : float) (b : Building.t) : Sql.truth :=
  Sql.lift2 PrimFloat.leb (distance b lat lon) (Some radius).

(** The [buildings] query of the handler. *)
Definition radius_buildings (db : Session.t) (lat lon radius : float)
  : list Building.t :=
  Sql.select (within lat lon radius) (Session.buildings db).

(** [b.organizations]: the relationship loads the rows that reference [b]. *)
Definition building_organizations (db : Session.t) (b : Building.t)
  : list Organization.t :=
  Sql.select
    (fun o => Sql.eq (Organization.building_id o) (Some (Building.id b)))
    (Session.organizations db).

(** [radius: float = Query(..., gt=0)] is checked before the body runs. *)
Definition orgs_by_location (db : Session.t) (lat lon radius : float)
  : Response (list Organization.t) :=
  if PrimFloat.ltb 0 radius then
    Ok (fold_left (fun orgs b => orgs ++ building_organizations db b)
                  (radius_buildings db lat lon radius) [])
  else RequestValidationError.

End Radius.


(** * Specification-level definitions *)

(** ** The descendant walk, level by level

    [descend n db a] lists what a call with [n] levels left collects, and
    [descend_fetches n db a] the keys it asks the store about. *)

Fixpoint descend (levels : nat) (db : Session.t) (a : Z) : list Z :=
  match levels with
  | O => []
  | S n =>
      a :: flat_map (fun c => descend n db (Activity.id c))
                    (children_of db (Some a))
  end.

Fixpoint descend_fetches (levels : nat) (db : Session.t) (a : Z)
  : list Fetch :=
  match levels with
  | O => []
  | S n =>
      Some a :: flat_map (fun c => descend_fetches n db (Activity.id c))
                         (children_of db (Some a))
  end.

(** ** Forest rendering, level by level

    [render n db key] is what a call with [n] levels left emits and
    [render_fetches n db key] the keys it asks the store about. *)

Fixpoint render (levels : nat) (db : Session.t) (parent_id : option Z)
  : list ActivityOut.t :=
  match levels with
  | O => []
  | S n =>
      flat_map (fun act => ActivityOut.from_orm act
                           :: render n db (Some (Activity.id act)))
               (children_of db parent_id)
  end.

Fixpoint render_fetches (levels : nat) (db : Session.t) (parent_id : option Z)
  : list Fetch :=
  match levels with
  | O => []
  | S n =>
      parent_id :: flat_map (fun act => render_fetches n db
                                          (Some (Activity.id act)))
                            (children_of db parent_id)
  end.


(** ** Hops in the activity hierarchy

    [hops db k a x]: [x] lies [k] child links below [a], every link being a
    stored row whose [parent_id] names the previous activity. *)

Inductive hops (db : Session.t) : nat -> Z -> Z -> Prop :=
| hops_here (a : Z) : hops db 0 a a
| hops_down (k : nat) (a : Z) (c : Activity.t) (x : Z) :
    In c (Session.activities db) ->
    Activity.parent_id c = Some a ->
    hops db k (Activity.id c) x ->
    hops db (S k) a x.

(** Some link row ties organization [o] to activity [x]. *)
Definition linked (db : Session.t) (x : Z) (o : Organization.t) : Prop :=
  exists l,
    In l (Session.organization_activities db)
    /\ OrganizationActivity.activity_id l = Some x
    /\ OrganizationActivity.organization_id l = Some (Organization.id o).

(** [o] is linked to [a] itself or to an activity at most [reach] hops
    below it. *)
Definition linked_below (db : Session.t) (reach : nat) (a : Z)
  (o : Organization.t) : Prop :=
  exists k x, (k <= reach)%nat /\ hops db k a x /\ linked db x o.

(** ** The hierarchy as a forest, and its pre-order listing *)

Inductive tree : Type :=
| Node (label : Activity.t) (kids : list tree).

Definition label_of (t : tree) : Activity.t :=
  match t with Node a _ => a end.

Definition kids_of (t : tree) : list tree :=
  match t with Node _ ks => ks end.

(** The forest below [key], cut after [levels] levels; siblings are in the
    order the store returns them. *)
Fixpoint forest (levels : nat) (db : Session.t) (key : option Z)
  : list tree :=
  match levels with
  | O => []
  | S n =>
      map (fun act => Node act (forest n db (Some (Activity.id act))))
          (children_of db key)
  end.

(** Depth-first pre-order: a node, then each of its subtrees in turn. *)
Fixpoint preorder (t : tree) : list Activity.t :=
  match t with
  | Node a ks => a :: flat_map preorder ks
  end.

(** ** Distances

    The distance as the radius query computes it, from the coordinates of a
    building to the query point. *)

Definition planar_distance (pow : float -> float -> float)
  (x y lat lon : float) : float :=
  pow (PrimFloat.add (pow (PrimFloat.sub x lat) 2%float)
                     (pow (PrimFloat.sub y lon) 2%float)) 0.5%float.

(** Exact arithmetic on the values of finite floats: [(m, e)] stands for
    [m * 2 ^ e]. *)
Module Dyadic.

Definition t : Type := (Z * Z)%type.

(** The mantissa of [d] at the exponent [e], for [e] at most that of [d]. *)
Definition at_exponent (d : t) (e : Z) : Z := fst d * 2 ^ (snd d - e).

Definition add (a b : t) : t :=
  let e := Z.min (snd a) (snd b) in (at_exponent a e + at_exponent b e, e).

Definition sub (a b : t) : t :=
  let e := Z.min (snd a) (snd b) in (at_exponent a e - at_exponent b e, e).

Definition mul (a b : t) : t := (fst a * fst b, snd a + snd b).

Definition eqb (a b : t) : bool :=
  let e := Z.min (snd a) (snd b) in at_exponent a e =? at_exponent b e.

Definition of_float (f : float) : option t :=
  match Prim2SF f with
  | S754_zero _ => Some (0, 0)
  | S754_finite s m e => Some (if s then Z.neg m else Z.pos m, e)
  | S754_infinity _ | S754_nan => None
  end.

End Dyadic.

(** The Euclidean distance from [(x, y)] to [(lat, lon)] is exactly [r]:
    [r] is not negative and [(x - lat)^2 + (y - lon)^2 = r^2], computed
    without rounding. *)
Definition euclid_exactly (x y lat lon r : float) : bool :=
  match Dyadic.of_float x, Dyadic.of_float y, Dyadic.of_float lat,
        Dyadic.of_float lon, Dyadic.of_float r with
  | Some dx, Some dy, Some dlat, Some dlon, Some dr =>
      (0 <=? fst dr)
      && Dyadic.eqb
           (Dyadic.add
              (Dyadic.mul (Dyadic.sub dx dlat) (Dyadic.sub dx dlat))
              (Dyadic.mul (Dyadic.sub dy dlon) (Dyadic.sub dy dlon)))
           (Dyadic.mul dr dr)
  | _, _, _, _, _ => false
  end.

(** ** Declared schema constraints *)

(** [Building.id] is the primary key. *)
Definition building_pk (db : Session.t) : Prop :=
  NoDup (map Building.id (Session.buildings db)).

(** [Organization.id] is the primary key. *)
Definition organization_pk (db : Session.t) : Prop :=
  NoDup (map Organization.id (Session.organizations db)).

(** ** Levels of the hierarchy

    [below db key k act]: [act] is a stored activity [k] levels below the
    children of [key]; the children themselves are at level 0. *)

Inductive below (db : Session.t) : option Z -> nat -> Activity.t -> Prop :=
| below_child (key : option Z) (act : Activity.t) :
    In act (children_of db key) -> below db key 0 act
| below_deeper (key : option Z) (p : Activity.t) (k : nat) (act : Activity.t) :
    In p (children_of db key) ->
    below db (Some (Activity.id p)) k act ->
    below db key (S k) act.

(** ** Search strings without wildcards *)

Fixpoint literal (s : string) : bool :=
  match s with
  | EmptyString => true
  | String c s' =>
      negb (c =? "%")%char && negb (c =? "_")%char && literal s'
  end.

(** ** Sample stores *)

Module Sample.

(** The hierarchy 1 -> 2 -> 3 -> 4. *)
Definition chain : list Activity.t :=
  [ Activity.mk 1 "one" None;
    Activity.mk 2 "two" (Some 1);
    Activity.mk 3 "three" (Some 2);
    Activity.mk 4 "four" (Some 3) ].

Definition chain_db (bs : list Building.t) (os : list Organization.t)
  (ls : list OrganizationActivity.t) : Session.t :=
  Session.mk bs chain os ls.

Definition org (id : Z) (name : string) (building : option Z)
  : Organization.t :=
  Organization.mk id name (Some "2-222-222, 3-333-333"%string) building.

Definition butcher : Organization.t := org 10 "Butcher" (Some 1).
Definition dairy : Organization.t := org 11 "Dairy" (Some 2).
Definition bakery : Organization.t := org 12 "Bakery" None.

(** [butcher] is linked to activity 3, [dairy] to activity 4 only,
    [bakery] to activity 2. *)
Definition links : list OrganizationActivity.t :=
  [ OrganizationActivity.mk 1 (Some 10) (Some 3);
    OrganizationActivity.mk 2 (Some 11) (Some 4);
    OrganizationActivity.mk 3 (Some 12) (Some 2) ].

(** Building X at (0,0), building Y at (3,4), and one without coordinates. *)
Definition X : Building.t :=
  Building.mk 1 "Lenina 1" (Some 0%float) (Some 0%float).
Definition Y : Building.t :=
  Building.mk 2 "Mira 2" (Some 3%float) (Some 4%float).
Definition W : Building.t :=
  Building.mk 3 "Unknown" None (Some 0%float).

Definition store : Session.t :=
  chain_db [X; Y; W] [butcher; dairy; bakery] links.

(** The correctly rounded power function on the two exponents the handler
    uses: [x ** 2] is the rounded product, [x ** 0.5] the rounded square
    root. *)
Definition pow (x y : float) : float :=
  if PrimFloat.eqb y 2 then PrimFloat.mul x x else PrimFloat.sqrt x.


(** Building Z at (6,8). *)
Definition Z68 : Building.t :=
  Building.mk 5 "Sadovaya 5" (Some 6%float) (Some 8%float).

(** A building on a scaled 5-12-13 triangle: with [a = 1 + 3 * 2^-27] it
    lies at [(5a, 12a)], at distance exactly [13a] from the origin. *)
Definition far_lat : float := 0x1.40000078p+2%float.
Definition far_lon : float := 0x1.8000009p+3%float.
Definition far_radius : float := 0x1.a000009cp+3%float.

Definition Far : Building.t :=
  Building.mk 4 "Polevaya 4" (Some far_lat) (Some far_lon).

Definition kiosk : Organization.t := org 13 "Kiosk" (Some 4).

Definition far_store : Session.t :=
  Session.mk [Far] [] [kiosk] [].

End Sample.

(** * Verification *)

(** ** The walk monad *)

Lemma bind_ret_l {A B} (a : A) (k : A -> Walk B) : bind (ret a) k = k a.
Proof.
  unfold bind, ret. destruct (k a) as [[b q]|]; reflexivity.
Qed.

Lemma bind_Some {A B} (m : Walk A) (k : A -> Walk B) a q1 b q2 :
  m = Some (a, q1) -> k a = Some (b, q2) -> bind m k = Some (b, q1 ++ q2).
Proof.
  intros -> Hk. unfold bind. rewrite Hk. reflexivity.
Qed.

(** A loop whose body appends [v x] to the accumulator and issues the
    queries [q x] appends, over the whole list, the concatenation of the
    [v x] and issues the concatenation of the [q x]. *)
Lemma for_each_appends {A B} (xs : list A) (body : list B -> A -> Walk (list B))
  (v : A -> list B) (q : A -> list Fetch) :
  (forall acc x, In x xs -> body acc x = Some (acc ++ v x, q x)) ->
  forall acc,
    for_each xs acc body = Some (acc ++ flat_map v xs, flat_map q xs).
Proof.
  induction xs as [|x xs IH]; intros Hbody acc; simpl.
  - unfold ret. rewrite app_nil_r. reflexivity.
  - rewrite (bind_Some _ _ (acc ++ v x) (q x)
               ((acc ++ v x) ++ flat_map v xs) (flat_map q xs)).
    + rewrite <- app_assoc. reflexivity.
    + apply Hbody. left. reflexivity.
    + apply IH. intros acc' y Hy. apply Hbody. right. exact Hy.
Qed.

Lemma get_descendants_fuel_run (fuel : nat) (db : Session.t) :
  forall (act_id depth : Z),
    (Z.to_nat (3 - depth) <= fuel)%nat ->
    get_descendants_fuel fuel db act_id depth
    = Some (descend (Z.to_nat (3 - depth)) db act_id,
            descend_fetches (Z.to_nat (3 - depth)) db act_id).
Proof.
  induction fuel as [|fuel IH]; intros act_id depth Hfuel;
    cbn [get_descendants_fuel]; destruct (depth >? 2) eqn:Hcap.
  - replace (Z.to_nat (3 - depth)) with O by lia. reflexivity.
  - lia.
  - replace (Z.to_nat (3 - depth)) with O by lia. reflexivity.
  - replace (Z.to_nat (3 - depth)) with (S (Z.to_nat (3 - (depth + 1))))
      in * by lia.
    cbn [descend descend_fetches].
    unfold fetch_children. cbn [bind].
    rewrite (for_each_appends _ _
               (fun c => descend (Z.to_nat (3 - (depth + 1))) db (Activity.id c))
               (fun c => descend_fetches (Z.to_nat (3 - (depth + 1))) db
                           (Activity.id c))).
    + reflexivity.
    + intros acc c _. rewrite IH by lia. cbn [bind ret].
      rewrite app_nil_r. reflexivity.
Qed.

Lemma get_descendants_run (db : Session.t) (act_id : Z) :
  get_descendants db act_id
  = Some (descend 3 db act_id, descend_fetches 3 db act_id).
Proof.
  unfold get_descendants. rewrite get_descendants_fuel_run by (simpl; lia).
  reflexivity.
Qed.

(** More fuel never changes the outcome: the fuel is only a termination
    device for the embedding. *)
Lemma get_descendants_fuel_irrelevant (fuel : nat) db act_id :
  (3 <= fuel)%nat ->
  get_descendants_fuel fuel db act_id 0 = get_descendants db act_id.
Proof.
  intros H. rewrite get_descendants_run.
  rewrite get_descendants_fuel_run by (simpl; lia). reflexivity.
Qed.

Lemma collect_tree_fuel_run (fuel : nat) (db : Session.t) (max_depth : Z) :
  forall (parent_id : option Z) (depth : Z),
    (Z.to_nat (max_depth - depth) <= fuel)%nat ->
    collect_tree_fuel fuel db max_depth parent_id depth
    = Some (render (Z.to_nat (max_depth - depth)) db parent_id,
            render_fetches (Z.to_nat (max_depth - depth)) db parent_id).
Proof.
  induction fuel as [|fuel IH]; intros parent_id depth Hfuel;
    cbn [collect_tree_fuel]; destruct (depth >=? max_depth) eqn:Hcap.
  - replace (Z.to_nat (max_depth - depth)) with O by lia. reflexivity.
  - lia.
  - replace (Z.to_nat (max_depth - depth)) with O by lia. reflexivity.
  - replace (Z.to_nat (max_depth - depth))
      with (S (Z.to_nat (max_depth - (depth + 1)))) in * by lia.
    cbn [render render_fetches].
    unfold fetch_children. cbn [bind].
    rewrite (for_each_appends _ _
               (fun act => ActivityOut.from_orm act
                           :: render (Z.to_nat (max_depth - (depth + 1))) db
                                (Some (Activity.id act)))
               (fun act => render_fetches (Z.to_nat (max_depth - (depth + 1)))
                             db (Some (Activity.id act)))).
    + reflexivity.
    + intros acc act _. rewrite IH by lia. cbn [bind ret].
      rewrite <- app_assoc, app_nil_r. reflexivity.
Qed.

Lemma get_activity_tree_run (db : Session.t) (max_depth : Z) :
  get_activity_tree db max_depth
  = Some (render (Z.to_nat max_depth) db None,
          render_fetches (Z.to_nat max_depth) db None).
Proof.
  unfold get_activity_tree.
  rewrite collect_tree_fuel_run by (rewrite Z.sub_0_r; lia).
  rewrite Z.sub_0_r. reflexivity.
Qed.

(** ** The handlers run on the sample store *)

Example sample_descendants :
  get_descendants Sample.store 1 = Some ([1; 2; 3], [Some 1; Some 2; Some 3]).
Proof. vm_compute. reflexivity. Qed.

Example sample_search :
  search_by_activity_tree Sample.store 1
  = Some ([Sample.butcher; Sample.bakery], [Some 1; Some 2; Some 3]).
Proof. vm_compute. reflexivity. Qed.

Example sample_by_activity :
  orgs_by_activity Sample.store 2 = [Sample.bakery]
  /\ orgs_by_activity Sample.store 1 = [].
Proof. vm_compute. split; reflexivity. Qed.

Example sample_tree :
  option_map (fun r => map ActivityOut.id (fst r))
             (get_activity_tree Sample.store 3) = Some [1; 2; 3]
  /\ get_activity_tree Sample.store 1
     = Some ([ActivityOut.mk 1 "one" None], [None])
  /\ get_activity_tree Sample.store 0 = Some ([], []).
Proof. vm_compute. repeat split; reflexivity. Qed.

Example sample_location :
  orgs_by_location Sample.pow Sample.store 0 0 5
  = Ok [Sample.butcher; Sample.dairy]
  /\ orgs_by_location Sample.pow Sample.store 0 0 4.99 = Ok [Sample.butcher]
  /\ orgs_by_location Sample.pow Sample.store 0 0 0
     = RequestValidationError.
Proof. vm_compute. repeat split; reflexivity. Qed.

Example sample_name :
  orgs_by_name Sample.store "" = [Sample.butcher; Sample.dairy; Sample.bakery]
  /\ orgs_by_name Sample.store "AIR" = [Sample.dairy]
  /\ orgs_by_name Sample.store "b_k" = [Sample.bakery].
Proof. vm_compute. repeat split; reflexivity. Qed.

(** ** WHERE clauses *)

Lemma holds_or3 (a b : Sql.truth) :
  Sql.holds (Sql.or3 a b) = Sql.holds a || Sql.holds b.
Proof.
  destruct a as [[]|], b as [[]|]; reflexivity.
Qed.

Lemma holds_eq (col : option Z) (v : Z) :
  Sql.holds (Sql.eq col (Some v)) = true <-> col = Some v.
Proof.
  destruct col as [x|]; simpl.
  - destruct (Z.eqb_spec x v) as [->|Hne]; split; intros H;
      try reflexivity; try discriminate.
    injection H as H. contradiction.
  - split; discriminate.
Qed.

Lemma holds_col_eq_Some (col : option Z) (v : Z) :
  Sql.holds (Sql.col_eq col (Some v)) = true <-> col = Some v.
Proof.
  exact (holds_eq col v).
Qed.

Lemma holds_col_eq_None (col : option Z) :
  Sql.holds (Sql.col_eq col None) = true <-> col = None.
Proof.
  destruct col; simpl; split; intros H; try reflexivity; discriminate.
Qed.

Lemma holds_eq_null (col : option Z) : Sql.holds (Sql.eq col None) = false.
Proof.
  destruct col; reflexivity.
Qed.

Lemma holds_in (col : option Z) (values : list (option Z)) :
  Sql.holds (Sql.in_ col values) = true
  <-> exists x, col = Some x /\ In (Some x) values.
Proof.
  unfold Sql.in_. induction values as [|v values IH]; simpl.
  - split; [discriminate | intros (x & _ & [])].
  - rewrite holds_or3, orb_true_iff, IH. split.
    + intros [H | (x & Hcol & Hin)].
      * destruct v as [y|]; [|rewrite holds_eq_null in H; discriminate].
        apply holds_eq in H. exists y. split; [exact H | left; reflexivity].
      * exists x. split; [exact Hcol | right; exact Hin].
    + intros (x & Hcol & [-> | Hin]).
      * left. apply holds_eq. exact Hcol.
      * right. exists x. split; assumption.
Qed.

Lemma In_select {A} (where_ : A -> Sql.truth) (table : list A) (row : A) :
  In row (Sql.select where_ table)
  <-> In row table /\ Sql.holds (where_ row) = true.
Proof.
  unfold Sql.select. apply filter_In.
Qed.

Lemma In_children_of (db : Session.t) (a : Z) (c : Activity.t) :
  In c (children_of db (Some a))
  <-> In c (Session.activities db) /\ Activity.parent_id c = Some a.
Proof.
  unfold children_of. rewrite In_select, holds_col_eq_Some. reflexivity.
Qed.

Lemma In_roots (db : Session.t) (c : Activity.t) :
  In c (children_of db None)
  <-> In c (Session.activities db) /\ Activity.parent_id c = None.
Proof.
  unfold children_of. rewrite In_select, holds_col_eq_None. reflexivity.
Qed.

(** ** What the descendant walk collects *)

Lemma In_descend (db : Session.t) (n : nat) :
  forall a x, In x (descend n db a) <-> exists k, (k < n)%nat /\ hops db k a x.
Proof.
  induction n as [|n IH]; intros a x; cbn [descend].
  - split; [intros [] | intros (k & Hk & _); lia].
  - cbn [In]. rewrite in_flat_map. split.
    + intros [<- | (c & Hc & Hx)].
      * exists O. split; [lia | constructor].
      * apply IH in Hx. destruct Hx as (k & Hk & Hpath).
        apply In_children_of in Hc. destruct Hc as [Hc Hp].
        exists (S k). split; [lia | ]. econstructor; eassumption.
    + intros (k & Hk & Hpath). inversion Hpath; subst.
      * left. reflexivity.
      * right. exists c. split.
        -- apply In_children_of. split; assumption.
        -- apply IH. eexists. split; [|eassumption]. lia.
Qed.


Lemma descend_childless (db : Session.t) (n : nat) (a : Z) :
  children_of db (Some a) = [] -> descend (S n) db a = [a].
Proof.
  intros H. cbn [descend]. rewrite H. reflexivity.
Qed.



(** ** From link rows to organizations *)

Lemma In_link_org_ids (db : Session.t)
  (clause : OrganizationActivity.t -> Sql.truth) (v : option Z) :
  In v (link_org_ids db clause)
  <-> exists l,
        In l (Session.organization_activities db)
        /\ Sql.holds (clause l) = true
        /\ OrganizationActivity.organization_id l = v.
Proof.
  unfold link_org_ids. rewrite in_map_iff. split.
  - intros (l & Hv & Hl). apply In_select in Hl. destruct Hl as [Hl Hc].
    exists l. auto.
  - intros (l & Hl & Hc & Hv). exists l. split; [exact Hv|].
    apply In_select. auto.
Qed.

Lemma In_orgs_with_ids (db : Session.t) (org_ids : list (option Z))
  (o : Organization.t) :
  In o (orgs_with_ids db org_ids)
  <-> In o (Session.organizations db) /\ In (Some (Organization.id o)) org_ids.
Proof.
  unfold orgs_with_ids. rewrite In_select, holds_in. split.
  - intros (Ho & x & Hx & Hin). injection Hx as <-. auto.
  - intros (Ho & Hin). split; [exact Ho|]. eexists. split; [reflexivity|exact Hin].
Qed.

Lemma In_orgs_by_activity (db : Session.t) (a : Z) (o : Organization.t) :
  In o (orgs_by_activity db a)
  <-> In o (Session.organizations db) /\ linked db a o.
Proof.
  unfold orgs_by_activity. rewrite In_orgs_with_ids, In_link_org_ids.
  unfold linked. split.
  - intros (Ho & l & Hl & Hc & Hv). apply holds_col_eq_Some in Hc.
    split; [exact Ho|]. exists l. auto.
  - intros (Ho & l & Hl & Hc & Hv). split; [exact Ho|]. exists l.
    rewrite holds_col_eq_Some. auto.
Qed.

Lemma search_by_activity_tree_run (db : Session.t) (a : Z) :
  search_by_activity_tree db a
  = Some (orgs_with_ids db
            (link_org_ids db
               (fun l => Sql.in_ (OrganizationActivity.activity_id l)
                                 (map Some (descend 3 db a)))),
          descend_fetches 3 db a).
Proof.
  unfold search_by_activity_tree. rewrite get_descendants_run.
  cbn [bind ret]. rewrite app_nil_r. reflexivity.
Qed.

Lemma In_search_ids (db : Session.t) (ids : list Z) (o : Organization.t) :
  In o (orgs_with_ids db
          (link_org_ids db
             (fun l => Sql.in_ (OrganizationActivity.activity_id l)
                               (map Some ids))))
  <-> In o (Session.organizations db)
      /\ exists x, In x ids /\ linked db x o.
Proof.
  rewrite In_orgs_with_ids, In_link_org_ids. unfold linked. split.
  - intros (Ho & l & Hl & Hc & Hv). apply holds_in in Hc.
    destruct Hc as (x & Hx & Hin). apply in_map_iff in Hin.
    destruct Hin as (y & Hy & Hin). injection Hy as ->.
    split; [exact Ho|]. exists x. split; [exact Hin|]. exists l. auto.
  - intros (Ho & x & Hin & l & Hl & Hx & Hv). split; [exact Ho|].
    exists l. split; [exact Hl|]. split; [|exact Hv].
    apply holds_in. exists x. split; [exact Hx|]. apply in_map. exact Hin.
Qed.

Lemma In_search (db : Session.t) (a : Z) (o : Organization.t) :
  In o (orgs_with_ids db
          (link_org_ids db
             (fun l => Sql.in_ (OrganizationActivity.activity_id l)
                               (map Some (descend 3 db a)))))
  <-> In o (Session.organizations db) /\ linked_below db 2 a o.
Proof.
  rewrite In_search_ids. unfold linked_below. split.
  - intros (Ho & x & Hin & Hl). split; [exact Ho|].
    apply In_descend in Hin. destruct Hin as (k & Hk & Hpath).
    exists k, x. split; [lia|]. auto.
  - intros (Ho & k & x & Hk & Hpath & Hl). split; [exact Ho|].
    exists x. split; [|exact Hl]. apply In_descend. exists k. split; [lia|auto].
Qed.

Lemma orgs_with_ids_is_filter (db : Session.t) (org_ids : list (option Z)) :
  exists keep, orgs_with_ids db org_ids = filter keep (Session.organizations db).
Proof.
  eexists. reflexivity.
Qed.

(** ** The two activity endpoints *)

(** C1 (amended): [/organizations/by_activity/{activity_id}] runs no tree
    walk; it returns exactly the stored organizations that a link row ties to
    the given activity itself.  The operation that broadens the query is
    [/activities/search]: it runs the descendant walk on the id, looks up the
    link rows whose activity is among the collected ids and fetches the
    organizations those rows name, which are exactly the stored organizations
    linked to the activity or to one at most two hops below it.  Either
    result is a selection from the organizations table, so every stored row
    appears at most once and in table order. *)
Theorem by_activity_direct_and_search_descends (db : Session.t) (a : Z) :
  (forall o, In o (orgs_by_activity db a)
             <-> In o (Session.organizations db) /\ linked db a o)
  /\ (exists keep,
        orgs_by_activity db a = filter keep (Session.organizations db))
  /\ exists found q,
       search_by_activity_tree db a = Some (found, q)
       /\ (forall o, In o found
                     <-> In o (Session.organizations db)
                         /\ linked_below db 2 a o)
       /\ exists keep, found = filter keep (Session.organizations db).
Proof.
  split; [|split].
  - intros o. apply In_orgs_by_activity.
  - apply orgs_with_ids_is_filter.
  - rewrite search_by_activity_tree_run. do 2 eexists.
    split; [reflexivity|]. split.
    + intros o. apply In_search.
    + apply orgs_with_ids_is_filter.
Qed.

(** C1 (as stated) fails: in the sample store the bakery is a stored
    organization linked to activity 2, a child of activity 1, yet the
    by-activity operation on activity 1 returns nothing. *)
Lemma orgs_by_activity_misses_descendants :
  In Sample.bakery (Session.organizations Sample.store)
  /\ linked_below Sample.store 2 1 Sample.bakery
  /\ orgs_by_activity Sample.store 1 = [].
Proof.
  split; [|split].
  - simpl. auto.
  - exists 1%nat, 2. split; [lia|]. split.
    + apply (hops_down _ 0 1 (Activity.mk 2 "two" (Some 1)) 2).
      * simpl. auto.
      * reflexivity.
      * constructor.
    + exists (OrganizationActivity.mk 3 (Some 12) (Some 2)).
      simpl. auto.
  - vm_compute. reflexivity.
Qed.

(** ** The depth cap of the descendant walk *)

Lemma chain_descend (bs : list Building.t) (os : list Organization.t)
  (ls : list OrganizationActivity.t) :
  descend 3 (Sample.chain_db bs os ls) 1 = [1; 2; 3]
  /\ descend_fetches 3 (Sample.chain_db bs os ls) 1 = [Some 1; Some 2; Some 3].
Proof.
  split; reflexivity.
Qed.

Lemma beyond_cap_returns_nothing (fuel : nat) (db : Session.t) (a depth : Z) :
  2 < depth -> get_descendants_fuel fuel db a depth = Some ([], []).
Proof.
  intros H. destruct fuel; cbn [get_descendants_fuel];
    replace (depth >? 2) with true by lia; reflexivity.
Qed.

(** C2 (amended): for every root activity [A] the descendant walk returns
    only activities at most two hops below [A], so none farther than three
    and none at hop distance four or more.  In the chain 1 -> 2 -> 3 -> 4 the
    search on 1 returns exactly the stored organizations linked to 1, 2 or
    3, and none linked only to 4.  The walk does ask the store for the
    children of 1, 2 and 3; activity 4 is dropped because the call made for
    it, at depth 3, returns the empty list without asking for anything. *)
Theorem descendants_within_cap_and_chain :
  (forall db A,
      exists ids q,
        get_descendants db A = Some (ids, q)
        /\ (forall x, In x ids -> exists k, (k <= 2)%nat /\ hops db k A x)
        /\ (forall x, (forall k, hops db k A x -> (4 <= k)%nat) -> ~ In x ids))
  /\ (forall bs os ls,
        exists found,
          search_by_activity_tree (Sample.chain_db bs os ls) 1
          = Some (found, [Some 1; Some 2; Some 3])
          /\ (forall o,
                In o found
                <-> In o os
                    /\ (linked (Sample.chain_db bs os ls) 1 o
                        \/ linked (Sample.chain_db bs os ls) 2 o
                        \/ linked (Sample.chain_db bs os ls) 3 o))
          /\ (forall o,
                (forall x, linked (Sample.chain_db bs os ls) x o -> x = 4) ->
                ~ In o found)
          /\ (forall fuel,
                get_descendants_fuel fuel (Sample.chain_db bs os ls) 4 3
                = Some ([], []))).
Proof.
  split.
  - intros db A. rewrite get_descendants_run. do 2 eexists.
    split; [reflexivity|]. split.
    + intros x Hx. apply In_descend in Hx. destruct Hx as (k & Hk & Hp).
      exists k. split; [lia | exact Hp].
    + intros x Hfar Hx. apply In_descend in Hx. destruct Hx as (k & Hk & Hp).
      specialize (Hfar k Hp). lia.
  - intros bs os ls. rewrite search_by_activity_tree_run.
    destruct (chain_descend bs os ls) as [-> ->].
    eexists. split; [reflexivity|].
    assert (Hchar : forall o,
               In o (orgs_with_ids (Sample.chain_db bs os ls)
                       (link_org_ids (Sample.chain_db bs os ls)
                          (fun l => Sql.in_ (OrganizationActivity.activity_id l)
                                            (map Some [1; 2; 3]))))
               <-> In o os
                   /\ (linked (Sample.chain_db bs os ls) 1 o
                       \/ linked (Sample.chain_db bs os ls) 2 o
                       \/ linked (Sample.chain_db bs os ls) 3 o)).
    { intros o. rewrite In_search_ids. cbn [Session.organizations Sample.chain_db].
      split.
      - intros (Ho & x & Hx & Hl). split; [exact Ho|].
        destruct Hx as [<- | [<- | [<- | []]]]; auto.
      - intros (Ho & [Hl | [Hl | Hl]]); (split; [exact Ho|]);
          eexists; (split; [|exact Hl]); simpl; auto. }
    split; [exact Hchar|]. split.
    + intros o Honly Hin. apply Hchar in Hin.
      destruct Hin as (_ & [Hl | [Hl | Hl]]); apply Honly in Hl; discriminate.
    + intros fuel. apply beyond_cap_returns_nothing. lia.
Qed.

(** C2 (as stated) fails in its last clause: on the chain the walk from
    activity 1 does fetch the children of activity 3. *)
Lemma chain_walk_fetches_children_of_3 :
  exists ids q,
    get_descendants Sample.store 1 = Some (ids, q) /\ In (Some 3) q.
Proof.
  exists [1; 2; 3], [Some 1; Some 2; Some 3]. split.
  - vm_compute. reflexivity.
  - simpl. auto.
Qed.




(** ** Forest rendering *)

Lemma flat_map_singleton {A B} (f : A -> B) (xs : list A) :
  flat_map (fun x => [f x]) xs = map f xs.
Proof.
  induction xs as [|x xs IH]; simpl; [reflexivity | rewrite IH; reflexivity].
Qed.

Lemma flat_map_nothing {A B} (xs : list A) :
  flat_map (fun _ : A => @nil B) xs = [].
Proof.
  induction xs as [|x xs IH]; simpl; [reflexivity | exact IH].
Qed.

Lemma from_orm_inj (a b : Activity.t) :
  ActivityOut.from_orm a = ActivityOut.from_orm b -> a = b.
Proof.
  destruct a, b. unfold ActivityOut.from_orm. simpl.
  intros H. injection H as -> -> ->. reflexivity.
Qed.

Lemma at_cap_returns_nothing (fuel : nat) (db : Session.t)
  (max_depth : Z) (key : option Z) (depth : Z) :
  max_depth <= depth ->
  collect_tree_fuel fuel db max_depth key depth = Some ([], []).
Proof.
  intros H. destruct fuel; cbn [collect_tree_fuel];
    replace (depth >=? max_depth) with true by lia; reflexivity.
Qed.

Lemma render_one (db : Session.t) (key : option Z) :
  render 1 db key = map ActivityOut.from_orm (children_of db key)
  /\ render_fetches 1 db key = [key].
Proof.
  cbn [render render_fetches].
  rewrite flat_map_singleton, flat_map_nothing. split; reflexivity.
Qed.

(** C4: with [max_depth = 0] the forest rendering is empty and asks the store
    for nothing; with [max_depth = 1] it emits exactly the root activities
    (those without parent), in store order, and asks for the roots only, so
    no child is emitted or fetched.  In general a call whose depth has
    reached [max_depth] returns the empty list before any query. *)
Theorem get_activity_tree_depth_cap (db : Session.t) :
  get_activity_tree db 0 = Some ([], [])
  /\ (exists emitted,
        get_activity_tree db 1 = Some (emitted, [None])
        /\ emitted = map ActivityOut.from_orm (children_of db None)
        /\ (forall act,
              In (ActivityOut.from_orm act) emitted
              <-> In act (Session.activities db)
                  /\ Activity.parent_id act = None)
        /\ (forall out, In out emitted -> ActivityOut.parent_id out = None))
  /\ (forall fuel max_depth key depth,
        max_depth <= depth ->
        collect_tree_fuel fuel db max_depth key depth = Some ([], [])).
Proof.
  split; [|split].
  - rewrite get_activity_tree_run. reflexivity.
  - rewrite get_activity_tree_run.
    change (Z.to_nat 1) with 1%nat.
    destruct (render_one db None) as [-> ->].
    eexists. split; [reflexivity|]. split; [reflexivity|]. split.
    + intros act. rewrite <- In_roots. split.
      * intros H. apply in_map_iff in H. destruct H as (r & Heq & Hr).
        apply from_orm_inj in Heq. subst r. exact Hr.
      * apply in_map.
    + intros out H. apply in_map_iff in H. destruct H as (r & <- & Hr).
      apply In_roots in Hr. exact (proj2 Hr).
  - intros fuel max_depth key depth. apply at_cap_returns_nothing.
Qed.

(** C4 on the sample store: the call made for the children of root 1 at
    depth 1, with [max_depth = 1], is cut before its query. *)
Lemma get_activity_tree_depth_cap_sample :
  collect_tree_fuel 5 Sample.store 1 (Some 1) 1 = Some ([], []).
Proof.
  apply (proj2 (proj2 (get_activity_tree_depth_cap Sample.store))). lia.
Defined.

Lemma render_is_preorder (db : Session.t) (n : nat) :
  forall key,
    render n db key
    = map ActivityOut.from_orm (flat_map preorder (forest n db key)).
Proof.
  induction n as [|n IH]; intros key; cbn [render forest].
  - reflexivity.
  - induction (children_of db key) as [|act acts IHacts]; simpl.
    + reflexivity.
    + rewrite map_app, <- IHacts, IH. reflexivity.
Qed.

Lemma forest_labels (db : Session.t) (n : nat) (key : option Z) :
  map label_of (forest (S n) db key) = children_of db key.
Proof.
  cbn [forest]. rewrite map_map. simpl. apply map_id.
Qed.

Lemma forest_kids (db : Session.t) (n : nat) (key : option Z) (t : tree) :
  In t (forest (S n) db key) ->
  kids_of t = forest n db (Some (Activity.id (label_of t))).
Proof.
  cbn [forest]. intros H. apply in_map_iff in H.
  destruct H as (act & <- & _). reflexivity.
Qed.

(** C5: the rendering is the depth-first pre-order listing of the forest
    that hangs from the roots, cut after [max_depth] levels: every node is
    followed at once by the listing of its subtrees.  At every node the
    siblings are the store's answer for that parent, in the order the store
    gave them, which is the order of the activities table; and each node's
    subtrees are the forest below that node, one level shallower. *)
Theorem get_activity_tree_is_preorder (db : Session.t) (max_depth : Z) :
  (exists q,
      get_activity_tree db max_depth
      = Some (map ActivityOut.from_orm
                (flat_map preorder (forest (Z.to_nat max_depth) db None)),
              q))
  /\ (forall n key, map label_of (forest (S n) db key) = children_of db key)
  /\ (forall n key t,
        In t (forest (S n) db key) ->
        kids_of t = forest n db (Some (Activity.id (label_of t))))
  /\ (forall key,
        children_of db key
        = filter (fun a => Sql.holds (Sql.col_eq (Activity.parent_id a) key))
                 (Session.activities db)).
Proof.
  split; [|split; [|split]].
  - rewrite get_activity_tree_run, render_is_preorder. eexists. reflexivity.
  - intros n key. apply forest_labels.
  - intros n key t. apply forest_kids.
  - intros key. reflexivity.
Qed.

(** ** Comparisons of binary64 values *)

Lemma SFcompare_finite_refl (s : bool) (m : positive) (e : Z) :
  SFcompare (S754_finite s m e) (S754_finite s m e) = Some Eq.
Proof.
  simpl. destruct s; rewrite Z.compare_refl.
  - rewrite Pos.compare_cont_refl. reflexivity.
  - change (PosDef.Pos.compare_cont Eq m m) with (Pos.compare m m).
    rewrite Pos.compare_refl. reflexivity.
Qed.

Lemma leb_refl_positive (r : float) :
  PrimFloat.ltb 0 r = true -> PrimFloat.leb r r = true.
Proof.
  rewrite ltb_spec, leb_spec. unfold SFltb, SFleb.
  destruct (Prim2SF r) as [s|s| |s m e].
  - destruct s; reflexivity.
  - destruct s; reflexivity.
  - replace (Prim2SF 0) with (S754_zero false) by reflexivity.
    simpl. discriminate.
  - intros _. rewrite SFcompare_finite_refl. reflexivity.
Qed.

Lemma eqb_implies_leb (d r : float) :
  PrimFloat.eqb d r = true -> PrimFloat.leb d r = true.
Proof.
  rewrite eqb_spec, leb_spec. unfold SFeqb, SFleb.
  destruct (SFcompare (Prim2SF d) (Prim2SF r)) as [[]|];
    auto; discriminate.
Qed.

Lemma NoDup_map_unique {A B} (f : A -> B) (l : list A) (x y : A) :
  NoDup (map f l) -> In x l -> In y l -> f x = f y -> x = y.
Proof.
  induction l as [|a l IH]; simpl; intros Hnd Hx Hy Hf; [contradiction|].
  inversion Hnd as [|? ? Hnotin Hnd']; subst.
  destruct Hx as [-> | Hx], Hy as [-> | Hy].
  - reflexivity.
  - exfalso. apply Hnotin. rewrite Hf. apply in_map. exact Hy.
  - exfalso. apply Hnotin. rewrite <- Hf. apply in_map. exact Hx.
  - apply IH; assumption.
Qed.

Lemma fold_left_extend {A B} (f : A -> list B) (xs : list A) :
  forall acc,
    fold_left (fun acc x => acc ++ f x) xs acc = acc ++ flat_map f xs.
Proof.
  induction xs as [|x xs IH]; intros acc; simpl.
  - rewrite app_nil_r. reflexivity.
  - rewrite IH, <- app_assoc. reflexivity.
Qed.

Lemma nil_of_no_member {A} (l : list A) : (forall x, ~ In x l) -> l = [].
Proof.
  destruct l as [|a l]; intros H; [reflexivity|].
  exfalso. apply (H a). left. reflexivity.
Qed.

(** ** The radius search *)

Section RadiusFacts.

Variable pow : float -> float -> float.

Lemma orgs_by_location_run (db : Session.t) (lat lon radius : float) :
  PrimFloat.ltb 0 radius = true ->
  orgs_by_location pow db lat lon radius
  = Ok (flat_map (building_organizations db)
                 (radius_buildings pow db lat lon radius)).
Proof.
  intros Hpos. unfold orgs_by_location. rewrite Hpos.
  rewrite fold_left_extend. reflexivity.
Qed.

Lemma orgs_by_location_rejects (db : Session.t) (lat lon radius : float) :
  PrimFloat.ltb 0 radius = false ->
  orgs_by_location pow db lat lon radius = RequestValidationError.
Proof.
  intros Hneg. unfold orgs_by_location. rewrite Hneg. reflexivity.
Qed.

Lemma In_building_organizations (db : Session.t) (b : Building.t)
  (o : Organization.t) :
  In o (building_organizations db b)
  <-> In o (Session.organizations db)
      /\ Organization.building_id o = Some (Building.id b).
Proof.
  unfold building_organizations. rewrite In_select, holds_eq. reflexivity.
Qed.

Lemma In_orgs_by_location (db : Session.t) (lat lon radius : float)
  (orgs : list Organization.t) (o : Organization.t) :
  orgs_by_location pow db lat lon radius = Ok orgs ->
  (In o orgs
   <-> exists b,
         In b (radius_buildings pow db lat lon radius)
         /\ In o (Session.organizations db)
         /\ Organization.building_id o = Some (Building.id b)).
Proof.
  destruct (PrimFloat.ltb 0 radius) eqn:Hpos.
  - rewrite orgs_by_location_run by exact Hpos. intros H. injection H as <-.
    rewrite in_flat_map. split.
    + intros (b & Hb & Ho). apply In_building_organizations in Ho.
      exists b. tauto.
    + intros (b & Hb & Ho). exists b. split; [exact Hb|].
      apply In_building_organizations. exact Ho.
  - rewrite orgs_by_location_rejects by exact Hpos. discriminate.
Qed.

Lemma distance_defined (b : Building.t) (lat lon x y : float) :
  Building.lat b = Some x -> Building.lon b = Some y ->
  distance pow b lat lon
  = Some (pow (PrimFloat.add (pow (PrimFloat.sub x lat) 2)
                             (pow (PrimFloat.sub y lon) 2)) 0.5).
Proof.
  intros Hx Hy. unfold distance. rewrite Hx, Hy. reflexivity.
Qed.

Lemma distance_null (b : Building.t) (lat lon : float) :
  Building.lat b = None \/ Building.lon b = None ->
  distance pow b lat lon = None.
Proof.
  unfold distance. intros [H | H]; rewrite H;
    destruct (Building.lat b), (Building.lon b); reflexivity.
Qed.

Lemma In_radius_buildings (db : Session.t) (lat lon radius : float)
  (b : Building.t) :
  In b (radius_buildings pow db lat lon radius)
  <-> In b (Session.buildings db)
      /\ exists d, distance pow b lat lon = Some d
                   /\ PrimFloat.leb d radius = true.
Proof.
  unfold radius_buildings, within. rewrite In_select.
  destruct (distance pow b lat lon) as [d|]; simpl.
  - split.
    + intros [Hb Hle]. split; [exact Hb|]. exists d. split; [reflexivity|].
      destruct (PrimFloat.leb d radius); [reflexivity | discriminate].
    + intros [Hb (d' & Hd & Hle)]. injection Hd as <-. rewrite Hle. auto.
  - split.
    + intros [_ H]. discriminate.
    + intros [_ (d & Hd & _)]. discriminate.
Qed.

End RadiusFacts.

Lemma In_orgs_by_building (db : Session.t) (bid : Z) (o : Organization.t) :
  In o (orgs_by_building db bid)
  <-> In o (Session.organizations db)
      /\ Organization.building_id o = Some bid.
Proof.
  unfold orgs_by_building. rewrite In_select, holds_col_eq_Some. reflexivity.
Qed.

Section RadiusBoundary.

Variable pow : float -> float -> float.

(** C3 (amended): the radius test is inclusive on the distance the query
    computes.  For a building with both coordinates present that distance is
    [((x - lat) ** 2 + (y - lon) ** 2) ** 0.5] in binary64, and the building
    is selected exactly when it is stored and that value is [<= r].  So for
    [r > 0], when the computed distance equals [r] (as the same value, or
    under IEEE equality) the building is selected and every stored
    organization that references it is in the answer.  With [X] at (0,0)
    and [Y] at (3,4), and a power function that is exact on the five values
    involved, the query at (0,0) with radius 5 answers with the
    organizations of [X] followed by those of [Y], and with radius 4.99 with
    those of [X] alone; likewise a building at (6,8) is selected from (3,4)
    with radius 5 and not with radius 4.99. *)
Theorem radius_boundary_inclusive :
  (forall db lat lon r B x y,
      Building.lat B = Some x ->
      Building.lon B = Some y ->
      distance pow B lat lon = Some (planar_distance pow x y lat lon)
      /\ (In B (radius_buildings pow db lat lon r)
          <-> In B (Session.buildings db)
              /\ PrimFloat.leb (planar_distance pow x y lat lon) r = true)
      /\ (In B (Session.buildings db) ->
          PrimFloat.ltb 0 r = true ->
          planar_distance pow x y lat lon = r
          \/ PrimFloat.eqb (planar_distance pow x y lat lon) r = true ->
          In B (radius_buildings pow db lat lon r)
          /\ exists orgs,
               orgs_by_location pow db lat lon r = Ok orgs
               /\ forall o,
                    In o (Session.organizations db) ->
                    Organization.building_id o = Some (Building.id B) ->
                    In o orgs))
  /\ (pow 0 2 = 0 -> pow 3 2 = 9 -> pow 4 2 = 16 ->
      pow 0 0.5 = 0 -> pow 25 0.5 = 5 ->
      forall acts os ls,
        radius_buildings pow (Session.mk [Sample.X; Sample.Y] acts os ls) 0 0 5
        = [Sample.X; Sample.Y]
        /\ orgs_by_location pow (Session.mk [Sample.X; Sample.Y] acts os ls)
             0 0 5
           = Ok (building_organizations
                   (Session.mk [Sample.X; Sample.Y] acts os ls) Sample.X
                 ++ building_organizations
                      (Session.mk [Sample.X; Sample.Y] acts os ls) Sample.Y)
        /\ radius_buildings pow (Session.mk [Sample.X; Sample.Y] acts os ls)
             0 0 4.99
           = [Sample.X]
        /\ orgs_by_location pow (Session.mk [Sample.X; Sample.Y] acts os ls)
             0 0 4.99
           = Ok (building_organizations
                   (Session.mk [Sample.X; Sample.Y] acts os ls) Sample.X)
        /\ radius_buildings pow (Session.mk [Sample.Z68] acts os ls) 3 4 5
           = [Sample.Z68]
        /\ radius_buildings pow (Session.mk [Sample.Z68] acts os ls) 3 4 4.99
           = [])%float.
Proof.
  split.
  - intros db lat lon r B x y Hx Hy.
    assert (Hdist : distance pow B lat lon
                    = Some (planar_distance pow x y lat lon))
      by (apply distance_defined; assumption).
    assert (Hsel : In B (radius_buildings pow db lat lon r)
                   <-> In B (Session.buildings db)
                       /\ PrimFloat.leb (planar_distance pow x y lat lon) r
                          = true).
    { rewrite In_radius_buildings, Hdist. split.
      - intros [HB (d & Hd & Hle)]. injection Hd as <-. auto.
      - intros [HB Hle]. split; [exact HB|]. eexists. split; [reflexivity|].
        exact Hle. }
    split; [exact Hdist|]. split; [exact Hsel|].
    intros HB Hpos Heq.
    assert (Hin : In B (radius_buildings pow db lat lon r)).
    { apply Hsel. split; [exact HB|]. destruct Heq as [-> | Heq].
      - apply leb_refl_positive. exact Hpos.
      - apply eqb_implies_leb. exact Heq. }
    split; [exact Hin|].
    rewrite orgs_by_location_run by exact Hpos.
    eexists. split; [reflexivity|]. intros o Ho Href.
    apply in_flat_map. exists B. split; [exact Hin|].
    apply In_building_organizations. split; assumption.
  - intros H02 H32 H42 H0h H25h acts os ls.
    assert (HdX : distance pow Sample.X 0 0 = Some 0%float).
    { rewrite (distance_defined pow Sample.X 0 0 0 0) by reflexivity.
      replace (PrimFloat.sub 0 0) with 0%float by reflexivity.
      rewrite H02.
      replace (PrimFloat.add 0 0) with 0%float by reflexivity.
      rewrite H0h. reflexivity. }
    assert (HdY : distance pow Sample.Y 0 0 = Some 5%float).
    { rewrite (distance_defined pow Sample.Y 0 0 3 4) by reflexivity.
      replace (PrimFloat.sub 3 0) with 3%float by reflexivity.
      replace (PrimFloat.sub 4 0) with 4%float by reflexivity.
      rewrite H32, H42.
      replace (PrimFloat.add 9 16) with 25%float by reflexivity.
      rewrite H25h. reflexivity. }
    assert (HdZ : distance pow Sample.Z68 3 4 = Some 5%float).
    { rewrite (distance_defined pow Sample.Z68 3 4 6 8) by reflexivity.
      replace (PrimFloat.sub 6 3) with 3%float by reflexivity.
      replace (PrimFloat.sub 8 4) with 4%float by reflexivity.
      rewrite H32, H42.
      replace (PrimFloat.add 9 16) with 25%float by reflexivity.
      rewrite H25h. reflexivity. }
    assert (Hfive : radius_buildings pow
                      (Session.mk [Sample.X; Sample.Y] acts os ls) 0 0 5
                    = [Sample.X; Sample.Y]).
    { unfold radius_buildings, Sql.select, within.
      cbn [Session.buildings filter]. rewrite HdX, HdY. reflexivity. }
    assert (Hless : radius_buildings pow
                      (Session.mk [Sample.X; Sample.Y] acts os ls) 0 0 4.99
                    = [Sample.X]).
    { unfold radius_buildings, Sql.select, within.
      cbn [Session.buildings filter]. rewrite HdX, HdY. reflexivity. }
    split; [exact Hfive|]. split; [|split; [exact Hless|split; [|split]]].
    + rewrite orgs_by_location_run by reflexivity. rewrite Hfive.
      cbn [flat_map]. rewrite app_nil_r. reflexivity.
    + rewrite orgs_by_location_run by reflexivity. rewrite Hless.
      cbn [flat_map]. rewrite app_nil_r. reflexivity.
    + unfold radius_buildings, Sql.select, within.
      cbn [Session.buildings filter]. rewrite HdZ. reflexivity.
    + unfold radius_buildings, Sql.select, within.
      cbn [Session.buildings filter]. rewrite HdZ. reflexivity.
Qed.

End RadiusBoundary.

(** C3 (as stated) fails when rounding lifts the computed distance above
    the radius.  The building [Far] lies at [(5a, 12a)] with
    [a = 1 + 3 * 2^-27], at Euclidean distance exactly [13a] from the
    origin; with correctly rounded squares and square root the query
    computes the next float above [13a], so the query at the origin with
    radius [13a] selects no building and misses the kiosk that [Far]
    holds. *)
Lemma exact_boundary_building_excluded :
  euclid_exactly Sample.far_lat Sample.far_lon 0 0 Sample.far_radius = true
  /\ PrimFloat.ltb 0 Sample.far_radius = true
  /\ In Sample.Far (Session.buildings Sample.far_store)
  /\ In Sample.kiosk (Session.organizations Sample.far_store)
  /\ Organization.building_id Sample.kiosk = Some (Building.id Sample.Far)
  /\ distance Sample.pow Sample.Far 0 0
     = Some (PrimFloat.next_up Sample.far_radius)
  /\ radius_buildings Sample.pow Sample.far_store 0 0 Sample.far_radius = []
  /\ orgs_by_location Sample.pow Sample.far_store 0 0 Sample.far_radius
     = Ok [].
Proof.
  repeat split; try (vm_compute; reflexivity); simpl; auto.
Qed.

(** C3 on the sample store, whose buildings [X] and [Y] hold the butcher and
    the dairy: [Y] lies at computed distance exactly 5 from (0,0).  The
    sample power function is exact on the five values of the scenario. *)
Lemma radius_boundary_inclusive_sample :
  In Sample.Y (radius_buildings Sample.pow Sample.store 0 0 5)
  /\ orgs_by_location Sample.pow Sample.store 0 0 5
     = Ok [Sample.butcher; Sample.dairy]
  /\ radius_buildings Sample.pow
       (Session.mk [Sample.X; Sample.Y] Sample.chain
                   [Sample.butcher; Sample.dairy] Sample.links) 0 0 4.99
     = [Sample.X]
  /\ radius_buildings Sample.pow
       (Session.mk [Sample.Z68] Sample.chain [] []) 3 4 5
     = [Sample.Z68].
Proof.
  destruct (radius_boundary_inclusive Sample.pow) as [Hedge Hscenario].
  destruct (Hedge Sample.store 0%float 0%float 5%float Sample.Y
                  3%float 4%float eq_refl eq_refl)
    as (_ & _ & Hincl).
  destruct (Hscenario eq_refl eq_refl eq_refl eq_refl eq_refl
              Sample.chain [Sample.butcher; Sample.dairy] Sample.links)
    as (_ & _ & Hless & _).
  destruct (Hscenario eq_refl eq_refl eq_refl eq_refl eq_refl
              Sample.chain [] [])
    as (_ & _ & _ & _ & Hshift & _).
  split; [|split; [|split]].
  - apply Hincl.
    + simpl. auto.
    + reflexivity.
    + left. vm_compute. reflexivity.
  - vm_compute. reflexivity.
  - exact Hless.
  - exact Hshift.
Defined.

(** C7: whatever the query, a building whose latitude or longitude is null
    is not among the selected buildings; and, building ids being a primary
    key, no organization that references such a stored building is in the
    by-location answer. *)
Theorem null_coordinates_never_selected (pow : float -> float -> float)
  (db : Session.t) (lat lon r : float) (B : Building.t) :
  Building.lat B = None \/ Building.lon B = None ->
  ~ In B (radius_buildings pow db lat lon r)
  /\ (building_pk db ->
      In B (Session.buildings db) ->
      forall orgs o,
        orgs_by_location pow db lat lon r = Ok orgs ->
        Organization.building_id o = Some (Building.id B) ->
        ~ In o orgs).
Proof.
  intros Hnull.
  assert (Hout : ~ In B (radius_buildings pow db lat lon r)).
  { intros H. apply In_radius_buildings in H.
    destruct H as [_ (d & Hd & _)].
    rewrite (distance_null pow B lat lon Hnull) in Hd. discriminate. }
  split; [exact Hout|].
  intros Hpk HB orgs o Hrun Href Hin.
  apply (In_orgs_by_location pow db lat lon r orgs o Hrun) in Hin.
  destruct Hin as (b & Hb & _ & Href').
  assert (Hstored : In b (Session.buildings db)).
  { apply In_radius_buildings in Hb. exact (proj1 Hb). }
  assert (b = B).
  { apply (NoDup_map_unique Building.id (Session.buildings db)); auto.
    rewrite Href in Href'. injection Href' as ->. reflexivity. }
  subst b. exact (Hout Hb).
Qed.

Lemma sample_building_pk : building_pk Sample.store.
Proof.
  unfold building_pk. simpl.
  repeat constructor; simpl; intuition discriminate.
Qed.

(** C7 on the sample store: building [W] has no latitude. *)
Lemma null_coordinates_never_selected_sample :
  (Building.lat Sample.W = None \/ Building.lon Sample.W = None)
  /\ (~ In Sample.W (radius_buildings Sample.pow Sample.store 0 0 5)
      /\ (building_pk Sample.store ->
          In Sample.W (Session.buildings Sample.store) ->
          forall orgs o,
            orgs_by_location Sample.pow Sample.store 0 0 5 = Ok orgs ->
            Organization.building_id o = Some (Building.id Sample.W) ->
            ~ In o orgs)).
Proof.
  split.
  - left. reflexivity.
  - apply (null_coordinates_never_selected Sample.pow Sample.store
             0%float 0%float 5%float Sample.W).
    left. reflexivity.
Defined.

(** C10: an organization whose building reference is null is returned by
    the by-building operation for no building id and by the by-location
    operation for no query. *)
Theorem no_building_never_returned (pow : float -> float -> float)
  (db : Session.t) (o : Organization.t) :
  Organization.building_id o = None ->
  (forall building_id, ~ In o (orgs_by_building db building_id))
  /\ (forall lat lon r orgs,
        orgs_by_location pow db lat lon r = Ok orgs -> ~ In o orgs).
Proof.
  intros Hnone. split.
  - intros bid Hin. apply In_orgs_by_building in Hin.
    destruct Hin as [_ Href]. rewrite Hnone in Href. discriminate.
  - intros lat lon r orgs Hrun Hin.
    apply (In_orgs_by_location pow db lat lon r orgs o Hrun) in Hin.
    destruct Hin as (b & _ & _ & Href). rewrite Hnone in Href. discriminate.
Qed.

(** C10 on the sample store: the bakery references no building. *)
Lemma no_building_never_returned_sample :
  Organization.building_id Sample.bakery = None
  /\ ((forall building_id,
          ~ In Sample.bakery (orgs_by_building Sample.store building_id))
      /\ (forall lat lon r orgs,
            orgs_by_location Sample.pow Sample.store lat lon r = Ok orgs ->
            ~ In Sample.bakery orgs)).
Proof.
  split.
  - reflexivity.
  - apply (no_building_never_returned Sample.pow Sample.store Sample.bakery).
    reflexivity.
Defined.

(** ** Name search *)

Lemma like_percent (s : string) : Sql.like "%" s = true.
Proof.
  induction s as [|c s IH]; [reflexivity|].
  change (Sql.like "%" (String c s))
    with (Sql.like "" (String c s) || Sql.like "%" s).
  rewrite IH. apply orb_true_r.
Qed.

Lemma like_percent_percent (s : string) : Sql.like "%%" s = true.
Proof.
  destruct s as [|c s].
  - reflexivity.
  - change (Sql.like "%%" (String c s))
      with (Sql.like "%" (String c s) || Sql.like "%%" s).
    rewrite like_percent. reflexivity.
Qed.

Lemma filter_all {A} (f : A -> bool) (l : list A) :
  (forall x, In x l -> f x = true) -> filter f l = l.
Proof.
  induction l as [|a l IH]; intros H; simpl; [reflexivity|].
  rewrite (H a) by (left; reflexivity).
  rewrite IH; [reflexivity|]. intros x Hx. apply H. right. exact Hx.
Qed.

Lemma lower_char_idempotent (c : ascii) :
  Sql.lower_char (Sql.lower_char c) = Sql.lower_char c.
Proof.
  destruct c as [[] [] [] [] [] [] [] []]; reflexivity.
Qed.

Lemma lower_idempotent (s : string) : Sql.lower (Sql.lower s) = Sql.lower s.
Proof.
  induction s as [|c s IH]; simpl; [reflexivity|].
  rewrite lower_char_idempotent, IH. reflexivity.
Qed.

Lemma lower_append (s t : string) :
  Sql.lower (s ++ t) = (Sql.lower s ++ Sql.lower t)%string.
Proof.
  induction s as [|c s IH]; simpl; [reflexivity|].
  rewrite IH. reflexivity.
Qed.

Lemma lower_pattern (name : string) :
  Sql.lower ("%" ++ Sql.lower name ++ "%")
  = Sql.lower ("%" ++ name ++ "%").
Proof.
  rewrite !lower_append, lower_idempotent. reflexivity.
Qed.

(** C8: the by-name search with the empty substring returns the whole
    organizations table, since the pattern it builds matches every name; and
    the match ignores letter case: lower-casing the substring changes
    nothing. *)
Theorem orgs_by_name_empty_returns_all (db : Session.t) :
  orgs_by_name db "" = Session.organizations db
  /\ forall name, orgs_by_name db (Sql.lower name) = orgs_by_name db name.
Proof.
  split.
  - unfold orgs_by_name, Sql.select. apply filter_all.
    intros o _. unfold Sql.ilike.
    change (Sql.lower ("%" ++ "" ++ "%")) with "%%"%string.
    cbn [Sql.holds]. rewrite like_percent_percent. reflexivity.
  - intros name. unfold orgs_by_name, Sql.select, Sql.ilike.
    rewrite lower_pattern. reflexivity.
Qed.

(** ** Not found versus empty *)

Lemma select_nothing {A} (where_ : A -> Sql.truth) (table : list A) :
  (forall row, In row table -> Sql.holds (where_ row) = false) ->
  Sql.select where_ table = [].
Proof.
  intros H. apply nil_of_no_member. intros row Hin.
  apply In_select in Hin. destruct Hin as [Hin Hholds].
  rewrite (H row Hin) in Hholds. discriminate.
Qed.

Lemma get_organization_found (db : Session.t) (org_id : Z)
  (o : Organization.t) :
  get_organization db org_id = Ok o ->
  In o (Session.organizations db) /\ Organization.id o = org_id.
Proof.
  unfold get_organization.
  destruct (Sql.select _ (Session.organizations db)) as [|r rs] eqn:Hsel;
    simpl; [discriminate|].
  intros H. injection H as <-.
  assert (Hin : In r (r :: rs)) by (left; reflexivity).
  rewrite <- Hsel in Hin. apply In_select in Hin. destruct Hin as [Hin Hid].
  apply holds_col_eq_Some in Hid. injection Hid as Hid. auto.
Qed.

Lemma get_organization_missing (db : Session.t) (org_id : Z) :
  (forall o, In o (Session.organizations db) -> Organization.id o <> org_id) ->
  get_organization db org_id = HTTPException 404 "Organization not found".
Proof.
  intros Hmissing. unfold get_organization.
  rewrite select_nothing; [reflexivity|].
  intros o Ho. destruct (Sql.holds _) eqn:Hholds; [|reflexivity].
  apply holds_col_eq_Some in Hholds. injection Hholds as Hid.
  exfalso. exact (Hmissing o Ho Hid).
Qed.

(** C9: for an id that no stored organization carries the by-id lookup
    answers with the 404 not-found signal, and whenever it answers with an
    organization that organization is stored under the id asked for.  The
    list-returning operations never raise for lack of a match: by-building,
    by-activity and by-name return the empty list, by-location (with a valid
    radius) and the two tree operations return normally, and their answer is
    the empty list when nothing matches. *)
Theorem not_found_versus_empty_list (pow : float -> float -> float)
  (db : Session.t) :
  (forall org_id,
      (forall o, In o (Session.organizations db) ->
                 Organization.id o <> org_id) ->
      get_organization db org_id
      = HTTPException 404 "Organization not found")
  /\ (forall org_id o,
        get_organization db org_id = Ok o ->
        In o (Session.organizations db) /\ Organization.id o = org_id)
  /\ (forall building_id,
        (forall o, In o (Session.organizations db) ->
                   Organization.building_id o <> Some building_id) ->
        orgs_by_building db building_id = [])
  /\ (forall activity_id,
        (forall o, In o (Session.organizations db) ->
                   ~ linked db activity_id o) ->
        orgs_by_activity db activity_id = [])
  /\ (forall name,
        (forall o, In o (Session.organizations db) ->
                   Sql.holds (Sql.ilike (Organization.name o)
                                        ("%" ++ name ++ "%")) = false) ->
        orgs_by_name db name = [])
  /\ (forall lat lon r,
        PrimFloat.ltb 0 r = true ->
        exists orgs,
          orgs_by_location pow db lat lon r = Ok orgs
          /\ (radius_buildings pow db lat lon r = [] -> orgs = []))
  /\ (forall activity_id,
        exists found q,
          search_by_activity_tree db activity_id = Some (found, q)
          /\ ((forall o, In o (Session.organizations db) ->
                         ~ linked_below db 2 activity_id o) ->
              found = []))
  /\ (forall max_depth,
        exists emitted q,
          get_activity_tree db max_depth = Some (emitted, q)
          /\ (children_of db None = [] -> emitted = [])).
Proof.
  repeat split.
  - apply get_organization_missing.
  - apply (get_organization_found db org_id o H).
  - apply (get_organization_found db org_id o H).
  - intros bid Hnone. apply nil_of_no_member. intros o Hin.
    apply In_orgs_by_building in Hin. destruct Hin as [Ho Href].
    exact (Hnone o Ho Href).
  - intros a Hnone. apply nil_of_no_member. intros o Hin.
    apply In_orgs_by_activity in Hin. destruct Hin as [Ho Hl].
    exact (Hnone o Ho Hl).
  - intros name Hnone. unfold orgs_by_name. apply select_nothing. exact Hnone.
  - intros lat lon r Hpos. rewrite orgs_by_location_run by exact Hpos.
    eexists. split; [reflexivity|]. intros ->. reflexivity.
  - intros a. rewrite search_by_activity_tree_run. do 2 eexists.
    split; [reflexivity|]. intros Hnone. apply nil_of_no_member.
    intros o Hin. apply In_search in Hin. destruct Hin as [Ho Hl].
    exact (Hnone o Ho Hl).
  - intros max_depth. rewrite get_activity_tree_run. do 2 eexists.
    split; [reflexivity|]. intros Hroots.
    destruct (Z.to_nat max_depth) as [|n]; cbn [render]; [reflexivity|].
    rewrite Hroots. reflexivity.
Qed.

(** C9 on the sample store, which holds no organization 99. *)
Lemma not_found_versus_empty_list_sample :
  get_organization Sample.store 99
  = HTTPException 404 "Organization not found"
  /\ orgs_by_building Sample.store 99 = [].
Proof.
  destruct (not_found_versus_empty_list Sample.pow Sample.store)
    as (Hmissing & _ & Hbuilding & _).
  split.
  - apply Hmissing. intros o Ho. simpl in Ho.
    destruct Ho as [<- | [<- | [<- | []]]]; simpl; lia.
  - apply Hbuilding. intros o Ho. simpl in Ho.
    destruct Ho as [<- | [<- | [<- | []]]]; simpl; discriminate.
Defined.

(** * Further properties of the handlers *)

(** ** The API key *)

(** X1: the key check passes for the static key and for nothing else (the
    comparison is exact, letter case included); every other header value
    raises the 403 exception. *)
Theorem get_api_key_accepts_only_static_key (api_key : string) :
  (get_api_key api_key = Ok tt <-> api_key = API_KEY)
  /\ (api_key <> API_KEY ->
      get_api_key api_key = HTTPException 403 "Invalid API key")
  /\ get_api_key "static_api_key" = HTTPException 403 "Invalid API key".
Proof.
  unfold get_api_key. split; [|split].
  - destruct (String.eqb_spec api_key API_KEY) as [Heq | Hne]; simpl.
    + split; [intros _; exact Heq | reflexivity].
    + split; [discriminate | intros Heq; contradiction].
  - intros Hne. destruct (String.eqb_spec api_key API_KEY) as [Heq | _];
      [contradiction | reflexivity].
  - reflexivity.
Qed.

(** ** The two activity endpoints, side by side *)

(** X2: whatever the by-activity operation returns for an activity at most
    two hops below [a] is also returned by the search on [a]. *)
Theorem by_activity_within_search (db : Session.t) (a x : Z) (k : nat)
  (o : Organization.t) :
  (k <= 2)%nat ->
  hops db k a x ->
  In o (orgs_by_activity db x) ->
  exists found q,
    search_by_activity_tree db a = Some (found, q) /\ In o found.
Proof.
  intros Hk Hpath Hin. rewrite search_by_activity_tree_run.
  do 2 eexists. split; [reflexivity|].
  apply In_orgs_by_activity in Hin. destruct Hin as [Ho Hl].
  apply In_search. split; [exact Ho|]. exists k, x. auto.
Qed.

Lemma by_activity_within_search_sample :
  (2 <= 2)%nat
  /\ hops Sample.store 2 1 3
  /\ In Sample.butcher (orgs_by_activity Sample.store 3)
  /\ exists found q,
       search_by_activity_tree Sample.store 1 = Some (found, q)
       /\ In Sample.butcher found.
Proof.
  assert (Hpath : hops Sample.store 2 1 3).
  { apply (hops_down _ 1 1 (Activity.mk 2 "two" (Some 1)) 3);
      [simpl; auto | reflexivity |].
    apply (hops_down _ 0 2 (Activity.mk 3 "three" (Some 2)) 3);
      [simpl; auto | reflexivity | constructor]. }
  assert (Hin : In Sample.butcher (orgs_by_activity Sample.store 3))
    by (vm_compute; auto).
  split; [lia|]. split; [exact Hpath|]. split; [exact Hin|].
  apply (by_activity_within_search Sample.store 1 3 2 Sample.butcher);
    [lia | exact Hpath | exact Hin].
Defined.

Lemma holds_in_single (col : option Z) (v : Z) :
  Sql.holds (Sql.in_ col [Some v]) = Sql.holds (Sql.col_eq col (Some v)).
Proof.
  unfold Sql.in_, Sql.col_eq. simpl. rewrite holds_or3. apply orb_false_r.
Qed.

(** X3: on an activity without child rows the search is the by-activity
    operation: the same list of organizations, after a single query for the
    children. *)
Theorem search_on_leaf_is_by_activity (db : Session.t) (a : Z) :
  children_of db (Some a) = [] ->
  search_by_activity_tree db a = Some (orgs_by_activity db a, [Some a]).
Proof.
  intros Hleaf. rewrite search_by_activity_tree_run.
  rewrite (descend_childless db 2 a Hleaf).
  cbn [descend_fetches]. rewrite Hleaf. cbn [flat_map].
  unfold orgs_by_activity, link_org_ids, Sql.select.
  rewrite (filter_ext
             (fun l => Sql.holds
                         (Sql.in_ (OrganizationActivity.activity_id l)
                                  (map Some [a])))
             (fun l => Sql.holds
                         (Sql.col_eq (OrganizationActivity.activity_id l)
                                     (Some a)))).
  - reflexivity.
  - intros l. apply holds_in_single.
Qed.

Lemma search_on_leaf_is_by_activity_sample :
  children_of Sample.store (Some 4) = []
  /\ search_by_activity_tree Sample.store 4
     = Some (orgs_by_activity Sample.store 4, [Some 4]).
Proof.
  split; [reflexivity|].
  apply (search_on_leaf_is_by_activity Sample.store 4). reflexivity.
Defined.

(** ** Cost of the descendant walk *)

Lemma descend_fetches_are_ids (db : Session.t) (n : nat) :
  forall a, descend_fetches n db a = map Some (descend n db a).
Proof.
  induction n as [|n IH]; intros a; cbn [descend descend_fetches].
  - reflexivity.
  - cbn [map]. f_equal.
    induction (children_of db (Some a)) as [|c cs IHcs]; simpl.
    + reflexivity.
    + rewrite map_app, IH, IHcs. reflexivity.
Qed.

(** X4: the descendant walk asks the store once per id it collects, in the
    same order, and the first id it collects is the root. *)
Theorem get_descendants_one_query_per_id (db : Session.t) (a : Z) :
  exists rest,
    get_descendants db a = Some (a :: rest, map Some (a :: rest)).
Proof.
  rewrite get_descendants_run, descend_fetches_are_ids.
  cbn [descend]. eexists. reflexivity.
Qed.

Lemma length_children_of (db : Session.t) (key : option Z) :
  (List.length (children_of db key) <= List.length (Session.activities db))%nat.
Proof.
  unfold children_of, Sql.select. apply filter_length_le.
Qed.

Lemma length_flat_map_le {A B} (f : A -> list B) (bound : nat) (xs : list A) :
  (forall x, In x xs -> (List.length (f x) <= bound)%nat) ->
  (List.length (flat_map f xs) <= List.length xs * bound)%nat.
Proof.
  induction xs as [|x xs IH]; intros H; simpl; [lia|].
  rewrite length_app.
  assert (List.length (f x) <= bound)%nat by (apply H; left; reflexivity).
  assert (List.length (flat_map f xs) <= List.length xs * bound)%nat
    by (apply IH; intros y Hy; apply H; right; exact Hy).
  lia.
Qed.

Lemma length_descend (db : Session.t) (a : Z) :
  (List.length (descend 1 db a) = 1
   /\ List.length (descend 2 db a) <= 1 + List.length (Session.activities db)
   /\ List.length (descend 3 db a)
      <= 1 + List.length (Session.activities db)
           * (1 + List.length (Session.activities db)))%nat.
Proof.
  assert (H1 : forall b, List.length (descend 1 db b) = 1%nat).
  { intros b. cbn [descend]. rewrite flat_map_nothing. reflexivity. }
  assert (H2 : forall b, (List.length (descend 2 db b)
                          <= 1 + List.length (Session.activities db))%nat).
  { intros b. cbn [descend List.length].
    pose proof (length_flat_map_le
                  (fun c => descend 1 db (Activity.id c)) 1
                  (children_of db (Some b))) as Hsum.
    pose proof (length_children_of db (Some b)).
    assert (List.length (flat_map (fun c => descend 1 db (Activity.id c))
                             (children_of db (Some b)))
            <= List.length (children_of db (Some b)) * 1)%nat.
    { apply Hsum. intros c _. rewrite H1. lia. }
    cbn [descend] in *. lia. }
  split; [apply H1|]. split; [apply H2|].
  cbn [List.length]. change (descend 3 db a)
    with (a :: flat_map (fun c => descend 2 db (Activity.id c))
                        (children_of db (Some a))).
  cbn [List.length].
  pose proof (length_flat_map_le
                (fun c => descend 2 db (Activity.id c))
                (1 + List.length (Session.activities db))
                (children_of db (Some a))) as Hsum.
  pose proof (length_children_of db (Some a)).
  assert (List.length (flat_map (fun c => descend 2 db (Activity.id c))
                           (children_of db (Some a)))
          <= List.length (children_of db (Some a))
             * (1 + List.length (Session.activities db)))%nat.
  { apply Hsum. intros c _. apply H2. }
  nia.
Qed.

(** X5: on any activities table, cyclic or not, the descendant walk collects
    at most [1 + n * (1 + n)] ids, [n] being the number of stored
    activities. *)
Theorem get_descendants_bounded (db : Session.t) (a : Z) :
  exists ids q,
    get_descendants db a = Some (ids, q)
    /\ (List.length ids
        <= 1 + List.length (Session.activities db)
               * (1 + List.length (Session.activities db)))%nat.
Proof.
  rewrite get_descendants_run. do 2 eexists. split; [reflexivity|].
  apply length_descend.
Qed.

(** ** No row twice *)

Lemma NoDup_select {A} (where_ : A -> Sql.truth) (table : list A) :
  NoDup table -> NoDup (Sql.select where_ table).
Proof.
  unfold Sql.select. apply NoDup_filter.
Qed.

(** X6: when the organizations table holds no row twice, neither does the
    answer of the by-building, by-activity, by-name or search operation,
    however many link rows or collected ids lead to the same
    organization. *)
Theorem list_handlers_keep_rows_distinct (db : Session.t) :
  NoDup (Session.organizations db) ->
  (forall building_id, NoDup (orgs_by_building db building_id))
  /\ (forall activity_id, NoDup (orgs_by_activity db activity_id))
  /\ (forall name, NoDup (orgs_by_name db name))
  /\ (forall activity_id,
        exists found q,
          search_by_activity_tree db activity_id = Some (found, q)
          /\ NoDup found).
Proof.
  intros Hnd. repeat split.
  - intros bid. apply NoDup_select. exact Hnd.
  - intros a. apply NoDup_select. exact Hnd.
  - intros name. apply NoDup_select. exact Hnd.
  - intros a. rewrite search_by_activity_tree_run. do 2 eexists.
    split; [reflexivity|]. apply NoDup_select. exact Hnd.
Qed.

Lemma sample_organizations_distinct : NoDup (Session.organizations Sample.store).
Proof.
  simpl. repeat constructor; simpl; intuition discriminate.
Qed.

Lemma list_handlers_keep_rows_distinct_sample :
  NoDup (Session.organizations Sample.store)
  /\ NoDup (orgs_by_activity Sample.store 2).
Proof.
  split; [exact sample_organizations_distinct|].
  apply (list_handlers_keep_rows_distinct Sample.store
           sample_organizations_distinct).
Defined.

(** ** What the forest rendering lists *)

Lemma In_render (db : Session.t) (n : nat) :
  forall key out,
    In out (render n db key)
    <-> exists k act,
          (k < n)%nat /\ below db key k act
          /\ out = ActivityOut.from_orm act.
Proof.
  induction n as [|n IH]; intros key out; cbn [render].
  - split; [intros [] | intros (k & act & Hk & _); lia].
  - rewrite in_flat_map. split.
    + intros (p & Hp & [<- | Hin]).
      * exists O, p. split; [lia|]. split; [constructor; exact Hp|reflexivity].
      * apply IH in Hin. destruct Hin as (k & act & Hk & Hbelow & ->).
        exists (S k), act. split; [lia|]. split; [|reflexivity].
        econstructor; eassumption.
    + intros (k & act & Hk & Hbelow & ->). inversion Hbelow; subst.
      * exists act. split; [assumption | left; reflexivity].
      * exists p. split; [assumption|]. right. apply IH.
        exists k0, act. split; [lia|]. auto.
Qed.

(** X7: the tree endpoint lists exactly the stored activities that lie fewer
    than [max_depth] levels below the roots. *)
Theorem get_activity_tree_lists_levels (db : Session.t) (max_depth : Z) :
  exists emitted q,
    get_activity_tree db max_depth = Some (emitted, q)
    /\ forall act,
         In (ActivityOut.from_orm act) emitted
         <-> exists k, Z.of_nat k < max_depth /\ below db None k act.
Proof.
  rewrite get_activity_tree_run. do 2 eexists. split; [reflexivity|].
  intros act. rewrite In_render. split.
  - intros (k & act' & Hk & Hbelow & Heq). apply from_orm_inj in Heq.
    subst act'. exists k. split; [lia | exact Hbelow].
  - intros (k & Hk & Hbelow). exists k, act. split; [lia|]. auto.
Qed.

(** X8: raising [max_depth] never drops an activity from the tree
    endpoint's answer. *)
Theorem get_activity_tree_grows_with_depth (db : Session.t)
  (shallow deep : Z) :
  shallow <= deep ->
  exists emitted q emitted' q',
    get_activity_tree db shallow = Some (emitted, q)
    /\ get_activity_tree db deep = Some (emitted', q')
    /\ incl emitted emitted'.
Proof.
  intros Hle. rewrite !get_activity_tree_run. do 4 eexists.
  split; [reflexivity|]. split; [reflexivity|].
  intros out Hin. apply In_render in Hin. apply In_render.
  destruct Hin as (k & act & Hk & Hrest). exists k, act.
  split; [lia | exact Hrest].
Qed.

Lemma get_activity_tree_grows_with_depth_sample :
  1 <= 3
  /\ exists emitted q emitted' q',
       get_activity_tree Sample.store 1 = Some (emitted, q)
       /\ get_activity_tree Sample.store 3 = Some (emitted', q')
       /\ incl emitted emitted'.
Proof.
  split; [lia|].
  apply (get_activity_tree_grows_with_depth Sample.store 1 3). lia.
Defined.

Lemma render_fetches_are_ids (db : Session.t) (n : nat) :
  forall key,
    render_fetches (S n) db key
    = key :: map (fun out => Some (ActivityOut.id out)) (render n db key).
Proof.
  induction n as [|n IH]; intros key.
  - cbn [render_fetches render]. rewrite flat_map_nothing. reflexivity.
  - change (render_fetches (S (S n)) db key)
      with (key :: flat_map (fun act => render_fetches (S n) db
                                          (Some (Activity.id act)))
                            (children_of db key)).
    change (render (S n) db key)
      with (flat_map (fun act => ActivityOut.from_orm act
                                 :: render n db (Some (Activity.id act)))
                     (children_of db key)).
    f_equal.
    induction (children_of db key) as [|act acts IHacts]; cbn [flat_map map].
    + reflexivity.
    + rewrite map_app, <- IHacts, IH. reflexivity.
Qed.

(** X9: with [max_depth >= 1] the tree endpoint asks the store for the
    roots and then once for the children of every activity that the
    rendering with [max_depth - 1] emits, in that order. *)
Theorem get_activity_tree_queries (db : Session.t) (max_depth : Z) :
  1 <= max_depth ->
  exists emitted shallower q',
    get_activity_tree db max_depth
    = Some (emitted,
            None :: map (fun out => Some (ActivityOut.id out)) shallower)
    /\ get_activity_tree db (max_depth - 1) = Some (shallower, q').
Proof.
  intros Hpos. rewrite !get_activity_tree_run.
  replace (Z.to_nat max_depth) with (S (Z.to_nat (max_depth - 1))) by lia.
  rewrite render_fetches_are_ids. do 3 eexists. split; reflexivity.
Qed.

Lemma get_activity_tree_queries_sample :
  1 <= 2
  /\ exists emitted shallower q',
       get_activity_tree Sample.store 2
       = Some (emitted,
               None :: map (fun out => Some (ActivityOut.id out)) shallower)
       /\ get_activity_tree Sample.store (2 - 1) = Some (shallower, q').
Proof.
  split; [lia|].
  apply (get_activity_tree_queries Sample.store 2). lia.
Defined.

(** ** Lookup by id *)

(** X10: organization ids being a primary key, every stored organization is
    what the by-id lookup returns for its id. *)
Theorem get_organization_finds_stored (db : Session.t) (o : Organization.t) :
  organization_pk db ->
  In o (Session.organizations db) ->
  get_organization db (Organization.id o) = Ok o.
Proof.
  intros Hpk Ho.
  destruct (get_organization db (Organization.id o)) as [r| code detail |]
    eqn:Hrun.
  - apply get_organization_found in Hrun. destruct Hrun as [Hr Hid].
    f_equal.
    apply (NoDup_map_unique Organization.id (Session.organizations db));
      assumption.
  - exfalso. unfold get_organization in Hrun.
    destruct (Sql.select _ (Session.organizations db)) as [|r rs] eqn:Hsel;
      simpl in Hrun; [|discriminate].
    assert (Hin : In o (Sql.select
                          (fun r => Sql.col_eq (Some (Organization.id r))
                                               (Some (Organization.id o)))
                          (Session.organizations db))).
    { apply In_select. split; [exact Ho|].
      apply holds_col_eq_Some. reflexivity. }
    rewrite Hsel in Hin. exact Hin.
  - exfalso. unfold get_organization in Hrun.
    destruct (Sql.first _); discriminate.
Qed.

Lemma sample_organization_pk : organization_pk Sample.store.
Proof.
  unfold organization_pk. simpl.
  repeat constructor; simpl; intuition discriminate.
Qed.

Lemma get_organization_finds_stored_sample :
  organization_pk Sample.store
  /\ In Sample.dairy (Session.organizations Sample.store)
  /\ get_organization Sample.store 11 = Ok Sample.dairy.
Proof.
  assert (Hin : In Sample.dairy (Session.organizations Sample.store))
    by (simpl; auto).
  split; [exact sample_organization_pk|]. split; [exact Hin|].
  apply (get_organization_finds_stored Sample.store Sample.dairy
           sample_organization_pk Hin).
Defined.

(** ** More on the radius search *)

Ltac compare_cases :=
  repeat match goal with
    | |- context [Z.compare ?a ?b] => destruct (Z.compare_spec a b); subst
    | |- context [PosDef.Pos.compare_cont Eq ?a ?b] =>
        change (PosDef.Pos.compare_cont Eq a b) with (Pos.compare a b)
    | |- context [Pos.compare ?a ?b] => destruct (Pos.compare_spec a b); subst
    end;
  simpl; try discriminate; try reflexivity; try lia.

Lemma SFleb_trans (x y z : spec_float) :
  SFleb x y = true -> SFleb y z = true -> SFleb x z = true.
Proof.
  unfold SFleb.
  destruct x as [sx|sx| |sx mx ex], y as [sy|sy| |sy my ey],
           z as [sz|sz| |sz mz ez];
    try destruct sx; try destruct sy; try destruct sz; simpl;
    try discriminate; try reflexivity; compare_cases.
Qed.

Lemma SFltb_leb_trans (x y z : spec_float) :
  SFltb x y = true -> SFleb y z = true -> SFltb x z = true.
Proof.
  unfold SFleb, SFltb.
  destruct x as [sx|sx| |sx mx ex], y as [sy|sy| |sy my ey],
           z as [sz|sz| |sz mz ez];
    try destruct sx; try destruct sy; try destruct sz; simpl;
    try discriminate; try reflexivity; compare_cases.
Qed.

Lemma SFleb_not_ltb (x y : spec_float) :
  SFleb x y = true -> SFltb y x = false.
Proof.
  unfold SFleb, SFltb.
  destruct x as [sx|sx| |sx mx ex], y as [sy|sy| |sy my ey];
    try destruct sx; try destruct sy; simpl;
    try discriminate; try reflexivity; compare_cases.
Qed.

Lemma SFeqb_irrefl_is_nan (x : spec_float) :
  SFeqb x x = false -> x = S754_nan.
Proof.
  unfold SFeqb.
  destruct x as [s|s| |s m e]; try reflexivity.
  - destruct s; discriminate.
  - destruct s; discriminate.
  - rewrite SFcompare_finite_refl. discriminate.
Qed.

Lemma leb_trans (x y z : float) :
  PrimFloat.leb x y = true -> PrimFloat.leb y z = true ->
  PrimFloat.leb x z = true.
Proof.
  rewrite !leb_spec. apply SFleb_trans.
Qed.

Lemma ltb_leb_trans (x y z : float) :
  PrimFloat.ltb x y = true -> PrimFloat.leb y z = true ->
  PrimFloat.ltb x z = true.
Proof.
  rewrite !ltb_spec, leb_spec. apply SFltb_leb_trans.
Qed.

Lemma not_positive (r : float) :
  PrimFloat.leb r 0 = true \/ PrimFloat.eqb r r = false ->
  PrimFloat.ltb 0 r = false.
Proof.
  rewrite leb_spec, eqb_spec, ltb_spec. intros [Hle | Hnan].
  - apply SFleb_not_ltb. exact Hle.
  - apply SFeqb_irrefl_is_nan in Hnan. rewrite Hnan.
    unfold SFltb. destruct (Prim2SF 0); reflexivity.
Qed.

Section RadiusMore.

Variable pow : float -> float -> float.

Lemma building_organizations_is_by_building (db : Session.t)
  (b : Building.t) :
  building_organizations db b = orgs_by_building db (Building.id b).
Proof.
  reflexivity.
Qed.

(** X11: a radius that is zero, negative or not a number never reaches the
    query: the handler is refused with the validation error. *)
Theorem orgs_by_location_rejects_bad_radius (db : Session.t)
  (lat lon r : float) :
  PrimFloat.leb r 0 = true \/ PrimFloat.eqb r r = false ->
  orgs_by_location pow db lat lon r = RequestValidationError.
Proof.
  intros Hbad. apply orgs_by_location_rejects. apply not_positive. exact Hbad.
Qed.

(** X12: for a valid radius the by-location answer is, building by selected
    building in store order, what the by-building operation returns for that
    building. *)
Theorem orgs_by_location_concatenates_by_building (db : Session.t)
  (lat lon r : float) :
  PrimFloat.ltb 0 r = true ->
  orgs_by_location pow db lat lon r
  = Ok (flat_map (fun b => orgs_by_building db (Building.id b))
                 (radius_buildings pow db lat lon r)).
Proof.
  intros Hpos. rewrite (orgs_by_location_run pow db lat lon r Hpos).
  reflexivity.
Qed.

(** X13: widening a valid radius never loses an organization: with
    [0 < r1 <= r2] both queries are accepted and every organization returned
    for [r1] is returned for [r2]. *)
Theorem orgs_by_location_grows_with_radius (db : Session.t)
  (lat lon r1 r2 : float) :
  PrimFloat.ltb 0 r1 = true ->
  PrimFloat.leb r1 r2 = true ->
  exists near far,
    orgs_by_location pow db lat lon r1 = Ok near
    /\ orgs_by_location pow db lat lon r2 = Ok far
    /\ incl near far.
Proof.
  intros Hpos Hle.
  assert (Hpos2 : PrimFloat.ltb 0 r2 = true)
    by (apply (ltb_leb_trans _ r1); assumption).
  rewrite (orgs_by_location_run pow db lat lon r1 Hpos).
  rewrite (orgs_by_location_run pow db lat lon r2 Hpos2).
  do 2 eexists. split; [reflexivity|]. split; [reflexivity|].
  intros o Hin. apply in_flat_map in Hin. destruct Hin as (b & Hb & Ho).
  apply in_flat_map. exists b. split; [|exact Ho].
  apply In_radius_buildings in Hb. destruct Hb as [Hstored (d & Hd & Hd1)].
  apply In_radius_buildings. split; [exact Hstored|].
  exists d. split; [exact Hd|]. apply (leb_trans _ r1); assumption.
Qed.

Lemma NoDup_flat_map_disjoint {A B} (f : A -> list B) (xs : list A) :
  NoDup xs ->
  (forall x, In x xs -> NoDup (f x)) ->
  (forall x y b, In x xs -> In y xs -> In b (f x) -> In b (f y) -> x = y) ->
  NoDup (flat_map f xs).
Proof.
  induction xs as [|x xs IH]; intros Hnd Heach Hdisj; simpl.
  - constructor.
  - inversion Hnd as [|? ? Hnotin Hnd']; subst.
    apply NoDup_app.
    + apply Heach. left. reflexivity.
    + apply IH.
      * exact Hnd'.
      * intros y Hy. apply Heach. right. exact Hy.
      * intros y z b Hy Hz. apply Hdisj; right; assumption.
    + intros b Hbx Hrest. apply in_flat_map in Hrest.
      destruct Hrest as (y & Hy & Hby).
      assert (x = y).
      { apply (Hdisj x y b); [left; reflexivity | right; exact Hy | | ];
          assumption. }
      subst y. exact (Hnotin Hy).
Qed.

(** X14: building ids being a primary key and the organizations table
    holding no row twice, the by-location answer holds no organization
    twice. *)
Theorem orgs_by_location_keeps_rows_distinct (db : Session.t)
  (lat lon r : float) (orgs : list Organization.t) :
  building_pk db ->
  NoDup (Session.organizations db) ->
  orgs_by_location pow db lat lon r = Ok orgs ->
  NoDup orgs.
Proof.
  intros Hpk Hnd Hrun.
  destruct (PrimFloat.ltb 0 r) eqn:Hpos.
  2:{ rewrite orgs_by_location_rejects in Hrun by exact Hpos. discriminate. }
  rewrite (orgs_by_location_run pow db lat lon r Hpos) in Hrun.
  injection Hrun as <-.
  apply NoDup_flat_map_disjoint.
  - unfold radius_buildings. apply NoDup_select.
    apply (NoDup_map_inv Building.id). exact Hpk.
  - intros b _. unfold building_organizations. apply NoDup_select. exact Hnd.
  - intros x y o Hx Hy Hox Hoy.
    apply In_building_organizations in Hox, Hoy.
    destruct Hox as [_ Hox], Hoy as [_ Hoy].
    apply In_radius_buildings in Hx, Hy.
    apply (NoDup_map_unique Building.id (Session.buildings db));
      [exact Hpk | exact (proj1 Hx) | exact (proj1 Hy) | ].
    rewrite Hox in Hoy. injection Hoy as Hid. exact Hid.
Qed.

End RadiusMore.

Lemma orgs_by_location_rejects_bad_radius_sample :
  (PrimFloat.leb (-1) 0 = true \/ PrimFloat.eqb (-1) (-1) = false)
  /\ orgs_by_location Sample.pow Sample.store 0 0 (-1)
     = RequestValidationError.
Proof.
  split; [left; reflexivity|].
  apply (orgs_by_location_rejects_bad_radius Sample.pow Sample.store).
  left. reflexivity.
Defined.

Lemma orgs_by_location_concatenates_by_building_sample :
  PrimFloat.ltb 0 5 = true
  /\ orgs_by_location Sample.pow Sample.store 0 0 5
     = Ok (flat_map (fun b => orgs_by_building Sample.store (Building.id b))
                    (radius_buildings Sample.pow Sample.store 0 0 5)).
Proof.
  split; [reflexivity|].
  apply (orgs_by_location_concatenates_by_building Sample.pow Sample.store).
  reflexivity.
Defined.

Lemma orgs_by_location_grows_with_radius_sample :
  PrimFloat.ltb 0 4.99 = true
  /\ PrimFloat.leb 4.99 5 = true
  /\ exists near far,
       orgs_by_location Sample.pow Sample.store 0 0 4.99 = Ok near
       /\ orgs_by_location Sample.pow Sample.store 0 0 5 = Ok far
       /\ incl near far.
Proof.
  split; [reflexivity|]. split; [reflexivity|].
  apply (orgs_by_location_grows_with_radius Sample.pow Sample.store);
    reflexivity.
Defined.

Lemma orgs_by_location_keeps_rows_distinct_sample :
  building_pk Sample.store
  /\ NoDup (Session.organizations Sample.store)
  /\ orgs_by_location Sample.pow Sample.store 0 0 5
     = Ok [Sample.butcher; Sample.dairy]
  /\ NoDup [Sample.butcher; Sample.dairy].
Proof.
  assert (Hrun : orgs_by_location Sample.pow Sample.store 0 0 5
                 = Ok [Sample.butcher; Sample.dairy])
    by (vm_compute; reflexivity).
  split; [exact sample_building_pk|].
  split; [exact sample_organizations_distinct|].
  split; [exact Hrun|].
  exact (orgs_by_location_keeps_rows_distinct Sample.pow Sample.store
           0%float 0%float 5%float _
           sample_building_pk sample_organizations_distinct Hrun).
Defined.

(** ** More on the name search *)

Lemma like_any_run_nil (rest : string) :
  Sql.like (String "%" rest) "" = Sql.like rest "" || false.
Proof.
  reflexivity.
Qed.

Lemma like_any_run_cons (rest : string) (c : ascii) (s : string) :
  Sql.like (String "%" rest) (String c s)
  = Sql.like rest (String c s) || Sql.like (String "%" rest) s.
Proof.
  reflexivity.
Qed.

Lemma like_any_run (rest s : string) :
  Sql.like (String "%" rest) s = true
  <-> exists pre t, s = (pre ++ t)%string /\ Sql.like rest t = true.
Proof.
  induction s as [|c s IH].
  - rewrite like_any_run_nil, orb_false_r. split.
    + intros H. exists ""%string, ""%string. split; [reflexivity | exact H].
    + intros (pre & t & Heq & H).
      destruct pre; [|discriminate]. simpl in Heq. subst t. exact H.
  - rewrite like_any_run_cons, orb_true_iff, IH. split.
    + intros [H | (pre & t & -> & H)].
      * exists ""%string, (String c s). split; [reflexivity | exact H].
      * exists (String c pre), t. split; [reflexivity | exact H].
    + intros (pre & t & Heq & H). destruct pre as [|c' pre].
      * left. simpl in Heq. subst t. exact H.
      * right. simpl in Heq. injection Heq as -> ->.
        exists pre, t. split; [reflexivity | exact H].
Qed.

Lemma like_plain_char (p : ascii) (rest s : string) :
  (p =? "%")%char = false ->
  (p =? "_")%char = false ->
  Sql.like (String p rest) s
  = match s with
    | EmptyString => false
    | String c s' => (p =? c)%char && Sql.like rest s'
    end.
Proof.
  intros Hpercent Hunder. cbn [Sql.like]. rewrite Hpercent, Hunder.
  reflexivity.
Qed.

Lemma like_literal_prefix (p rest : string) :
  literal p = true ->
  forall s,
    Sql.like (p ++ rest) s = true
    <-> exists t, s = (p ++ t)%string /\ Sql.like rest t = true.
Proof.
  induction p as [|c p IH]; intros Hlit s.
  - simpl. split.
    + intros H. exists s. split; [reflexivity | exact H].
    + intros (t & -> & H). exact H.
  - cbn [literal] in Hlit. apply andb_true_iff in Hlit.
    destruct Hlit as [Hc Hlit]. apply andb_true_iff in Hc.
    destruct Hc as [Hpercent Hunder].
    apply negb_true_iff in Hpercent, Hunder.
    change (String c p ++ rest)%string with (String c (p ++ rest)).
    rewrite (like_plain_char c (p ++ rest) s Hpercent Hunder).
    destruct s as [|d s].
    + split; [discriminate | intros (t & Heq & _); discriminate].
    + rewrite andb_true_iff, (IH Hlit s). split.
      * intros [Hcd (t & -> & H)]. apply Ascii.eqb_eq in Hcd. subst d.
        exists t. split; [reflexivity | exact H].
      * intros (t & Heq & H). simpl in Heq. injection Heq as -> ->.
        split; [apply Ascii.eqb_refl|]. exists t. split; [reflexivity | exact H].
Qed.

Lemma lower_char_keeps_wildcards (c : ascii) :
  (Sql.lower_char c =? "%")%char = (c =? "%")%char
  /\ (Sql.lower_char c =? "_")%char = (c =? "_")%char.
Proof.
  destruct c as [[] [] [] [] [] [] [] []]; split; reflexivity.
Qed.

Lemma literal_lower (s : string) : literal (Sql.lower s) = literal s.
Proof.
  induction s as [|c s IH]; simpl; [reflexivity|].
  destruct (lower_char_keeps_wildcards c) as [-> ->]. rewrite IH.
  reflexivity.
Qed.

Lemma ilike_contains (col name : string) :
  literal name = true ->
  Sql.holds (Sql.ilike col ("%" ++ name ++ "%")) = true
  <-> exists pre post,
        Sql.lower col = (pre ++ Sql.lower name ++ post)%string.
Proof.
  intros Hlit. unfold Sql.ilike.
  rewrite !lower_append.
  change (Sql.lower "%") with "%"%string.
  change ("%" ++ Sql.lower name ++ "%")%string
    with (String "%" (Sql.lower name ++ "%")).
  assert (Hholds : forall b : bool, Sql.holds (Some b) = true <-> b = true)
    by (intros []; simpl; split; congruence).
  rewrite Hholds, like_any_run.
  assert (Hlit' : literal (Sql.lower name) = true)
    by (rewrite literal_lower; exact Hlit).
  split.
  - intros (pre & t & Hcol & Hlike).
    apply (like_literal_prefix _ _ Hlit') in Hlike.
    destruct Hlike as (post & -> & _). exists pre, post. exact Hcol.
  - intros (pre & post & Hcol). exists pre, (Sql.lower name ++ post)%string.
    split; [exact Hcol|].
    apply (like_literal_prefix _ _ Hlit'). exists post.
    split; [reflexivity | apply like_percent].
Qed.

(** X15: for a search string without [%] and [_], the by-name search
    returns exactly the stored organizations whose lower-cased name contains
    the lower-cased string as a contiguous substring. *)
Theorem orgs_by_name_is_substring_search (db : Session.t) (name : string) :
  literal name = true ->
  forall o,
    In o (orgs_by_name db name)
    <-> In o (Session.organizations db)
        /\ exists pre post,
             Sql.lower (Organization.name o)
             = (pre ++ Sql.lower name ++ post)%string.
Proof.
  intros Hlit o. unfold orgs_by_name.
  rewrite In_select, (ilike_contains _ _ Hlit). reflexivity.
Qed.

Lemma orgs_by_name_is_substring_search_sample :
  literal "AIR" = true
  /\ (In Sample.dairy (orgs_by_name Sample.store "AIR")
      <-> In Sample.dairy (Session.organizations Sample.store)
          /\ exists pre post,
               Sql.lower (Organization.name Sample.dairy)
               = (pre ++ Sql.lower "AIR" ++ post)%string).
Proof.
  split; [reflexivity|].
  apply (orgs_by_name_is_substring_search Sample.store "AIR").
  reflexivity.
Defined.

Lemma lower_empty (s : string) : Sql.lower s = ""%string <-> s = ""%string.
Proof.
  destruct s; simpl; split; intros H; try reflexivity; discriminate.
Qed.

(** X16: the search string is used as a LIKE pattern, wildcards included:
    searching for [%] returns the whole organizations table, and searching
    for [_] returns exactly the stored organizations with a non-empty name,
    whether or not the name holds an underscore. *)
Theorem orgs_by_name_wildcards_not_escaped (db : Session.t) :
  orgs_by_name db "%" = Session.organizations db
  /\ forall o,
       In o (orgs_by_name db "_")
       <-> In o (Session.organizations db)
           /\ Organization.name o <> ""%string.
Proof.
  split.
  - unfold orgs_by_name, Sql.select. apply filter_all.
    intros o _. unfold Sql.ilike.
    change (Sql.lower ("%" ++ "%" ++ "%")) with (String "%" "%%").
    cbn [Sql.holds].
    assert (H : Sql.like (String "%" "%%") (Sql.lower (Organization.name o))
                = true).
    { apply like_any_run.
      exists ""%string, (Sql.lower (Organization.name o)).
      split; [reflexivity | apply like_percent_percent]. }
    rewrite H. reflexivity.
  - intros o. unfold orgs_by_name. rewrite In_select. unfold Sql.ilike.
    change (Sql.lower ("%" ++ "_" ++ "%")) with (String "%" "_%").
    assert (Hholds : forall b : bool, Sql.holds (Some b) = true <-> b = true)
      by (intros []; simpl; split; congruence).
    rewrite Hholds, like_any_run, <- lower_empty.
    split; intros [Ho H]; (split; [exact Ho|]).
    + destruct H as (pre & t & Heq & Hlike). rewrite Heq.
      destruct t as [|c t]; [discriminate|].
      destruct pre; discriminate.
    + destruct (Sql.lower (Organization.name o)) as [|c t] eqn:Hname;
        [contradiction|].
      exists ""%string, (String c t). split; [reflexivity|].
      change (Sql.like "_%" (String c t)) with (Sql.like "%" t).
      apply like_percent.
Qed.
